(** * Android file backend of JUCE: files, special locations, directory walks

    A shallow embedding of [src/native/android/juce_android_Files.cpp]:
    [File::copyInternal], [File::isHidden], [juce_readlink],
    [File::getLinkedTarget], [File::getSpecialLocation],
    [File::moveToTrash] and the native directory iterator
    [DirectoryIterator::NativeIterator::Pimpl].

    The C++ code talks to the operating system and to other JUCE classes.
    The operating system is a value of type [FileSystem] that is passed in
    and, where the code changes it, handed back.  The libc calls
    ([opendir], [readdir], [readlink], [stat]) read that value.  [fnmatch]
    stays a parameter of the iterator; [fnmatch_glob] is one instance of it,
    used to run the iterator on concrete directories.

    The edge flags of [Button] (its header is among the sources) are
    embedded at the end of the definitions. *)

From Stdlib Require Import ZArith List Ascii String Bool Lia.
From stdpp Require Import gmap strings list.

Local Open Scope Z_scope.

(** ** Strings and paths *)

(** [String::startsWithChar]. *)
Definition startsWithChar (s : string) (c : ascii) : bool :=
  match s with
  | EmptyString => false
  | String d _ => bool_decide (d = c)
  end.

(** [File::separator] on this platform. *)
Definition separator : ascii := "/"%char.

Fixpoint endsWithChar (s : string) (c : ascii) : bool :=
  match s with
  | EmptyString => false
  | String d EmptyString => bool_decide (d = c)
  | String _ r => endsWithChar r c
  end.

Fixpoint containsChar (s : string) (c : ascii) : bool :=
  match s with
  | EmptyString => false
  | String d r => bool_decide (d = c) || containsChar r c
  end.

(** A [File] holds its full path.  The path clean-up that the constructor of
    [File] does on its argument is not part of the file embedded here; a
    [File] is built from the string as it is given. *)
Record File := mkFile { getFullPathName : string }.

(** Modelled from the spec: [File::nonexistent] is declared with the class
    [File], outside the sources at hand.  The spec calls the value returned
    for an unmapped location the "empty path"; the constant is the file whose
    path is the empty string. *)
Definition nonexistent : File := mkFile "".

(** Modelled from the spec: [File::addTrailingSeparator] is defined with the
    class [File], outside the sources at hand.  The spec joins a directory
    and a name as [directory + "/" + name]; the separator is added unless
    the path already ends with it. *)
Definition addTrailingSeparator (path : string) : string :=
  if endsWithChar path separator then path else path +:+ "/".

(** Modelled from the spec: [File::getFileName] is defined with the class
    [File], outside the sources at hand.  The name of a path is its last
    segment: what follows the last separator. *)
Fixpoint lastSegment (path : string) : string :=
  match path with
  | EmptyString => EmptyString
  | String c r =>
      if containsChar r separator then lastSegment r
      else if bool_decide (c = separator) then r else path
  end.

Definition getFileName (f : File) : string := lastSegment (getFullPathName f).

(** Modelled from the spec: [File::getSiblingFile] is defined with the class
    [File], outside the sources at hand.  The spec's [siblingFile] replaces
    the last segment of the path by the new leaf name.  The functions below
    take the sibling operation as a parameter; this is the instance used on
    concrete inputs. *)
Fixpoint parentPrefix (path : string) : string :=
  match path with
  | EmptyString => EmptyString
  | String c r =>
      if containsChar r separator then String c (parentPrefix r)
      else if bool_decide (c = separator) then String c EmptyString
      else EmptyString
  end.

Definition replaceLastSegment (f : File) (leaf : string) : File :=
  mkFile (parentPrefix (getFullPathName f) +:+ leaf).

(** ** The file system *)

(** Why opening a directory fails: [errno] after [opendir] returned null
    ([ENOENT], [EACCES], [ENOTDIR]), under the names the spec gives them. *)
Inductive OpenError := NotFound | PermissionDenied | NotADirectory.

(** Why [stat] fails. *)
Inductive StatError := StatNotFound | StatPermissionDenied.

(** What [stat] reports about a path. *)
Record Metadata := mkMetadata {
  st_isDir : bool;
  st_size : Z;
  st_mtime : Z;
  st_ctime : Z;
  st_readOnly : bool
}.

(** What the operating system holds at a path. *)
Inductive Node :=
  | RegularFile (bytes : list Byte.byte)
  | Directory (entries : list string).

(** The state of the operating system that the code observes.
    - [nodes]: what is at each full path: a regular file with its bytes, or
      a directory with the names [readdir] reports for it, in the order
      [readdir] reports them (a real directory lists "." and ".." among
      them);
    - [links]: the symbolic links, each with the text it holds;
    - [stamps]: modification and creation time of a path, in milliseconds;
    - [readOnly]: the paths that cannot be written to;
    - [locked]: the paths at which nothing can be created or removed
      (their directory cannot be modified);
    - [denied]: the paths that cannot be reached (no permission to search
      their directory): every call on such a path fails;
    - [writeLimit]: how many bytes an output stream accepts before the
      device refuses further writes;
    - [dirSize]: the size [stat] reports for a directory, which depends on
      the kind of file system.

    Creating, writing or removing a file changes [nodes] at the path of the
    file and nothing else: the times, the room left on the device and the
    listing of the directory that holds the file are not kept up to date.
    One set, [locked], decides both whether a file can be created and
    whether it can be removed. *)
Record FileSystem := mkFileSystem {
  nodes : gmap string Node;
  links : gmap string string;
  stamps : gmap string (Z * Z);
  readOnly : gset string;
  locked : gset string;
  denied : gset string;
  writeLimit : nat;
  dirSize : Z
}.

Definition withNodes (fs : FileSystem) (m : gmap string Node) : FileSystem :=
  mkFileSystem m (links fs) (stamps fs) (readOnly fs)
               (locked fs) (denied fs) (writeLimit fs) (dirSize fs).

(** A path the operating system can look at: not empty and not [denied].
    Every call below fails on any other path. *)
Definition reachable (fs : FileSystem) (path : string) : bool :=
  negb (bool_decide (path = EmptyString))
  && negb (bool_decide (path ∈ denied fs)).

(** The bytes of the regular file at a path. *)
Definition fileBytes (fs : FileSystem) (path : string) : option (list Byte.byte) :=
  match nodes fs !! path with
  | Some (RegularFile bytes) => Some bytes
  | _ => None
  end.

(** *** libc *)

(** An open directory stream: the entries [readdir] has not returned yet.
    The stream holds the listing the directory had when it was opened; it
    stands for the stream of a directory that does not change while the
    stream is open. *)
Definition DIR := list string.

(** [opendir]: the stream of the directory, or the reason there is none. *)
Definition opendir (fs : FileSystem) (path : string) : DIR + OpenError :=
  if bool_decide (path ∈ denied fs) then inr PermissionDenied
  else if bool_decide (path = EmptyString) then inr NotFound
  else match nodes fs !! path with
       | Some (Directory entries) => inl entries
       | Some (RegularFile _) => inr NotADirectory
       | None => inr NotFound
       end.

(** [readdir]: the next entry and the stream after it; at the end of the
    stream there is no entry and the stream stays at its end. *)
Definition readdir (d : DIR) : option string * DIR :=
  match d with
  | [] => (None, [])
  | de :: rest => (Some de, rest)
  end.

(** [stat]. *)
Definition stat (fs : FileSystem) (path : string) : Metadata + StatError :=
  if bool_decide (path ∈ denied fs) then inr StatPermissionDenied
  else if bool_decide (path = EmptyString) then inr StatNotFound
  else
    let times := default (0, 0) (stamps fs !! path) in
    let ro := bool_decide (path ∈ readOnly fs) in
    match nodes fs !! path with
    | Some (RegularFile bytes) =>
        inl (mkMetadata false (Z.of_nat (length bytes)) (fst times) (snd times) ro)
    | Some (Directory _) =>
        inl (mkMetadata true (dirSize fs) (fst times) (snd times) ro)
    | None => inr StatNotFound
    end.

(** [access (path, F_OK) == 0]. *)
Definition access_F_OK (fs : FileSystem) (path : string) : bool :=
  reachable fs path && bool_decide (is_Some (nodes fs !! path)).

(** [readlink (path, buffer, bufsiz)]: the number of bytes placed in the
    buffer, with those bytes, or -1 when the path is not a symbolic link. The
    text of the link is cut at [bufsiz] bytes. *)
Definition readlink (fs : FileSystem) (path : string) (bufsiz : Z) : Z * string :=
  if reachable fs path then
    match links fs !! path with
    | Some target =>
        let n := Z.min (Z.of_nat (String.length target)) bufsiz in
        (n, String.substring 0 (Z.to_nat n) target)
    | None => (-1, EmptyString)
    end
  else (-1, EmptyString).

(** [size_t] on the 32-bit Android targets of this backend. *)
Definition size_t_bits : Z := 32.
Definition to_size_t (z : Z) : Z := z mod 2 ^ size_t_bits.

(** *** fnmatch *)

Definition FNM_CASEFOLD : Z := 16.
Definition FNM_NOMATCH : Z := 1.

Definition foldCase (c : ascii) : ascii :=
  let n := nat_of_ascii c in
  if (Nat.leb 65 n && Nat.leb n 90)%bool then ascii_of_nat (n + 32) else c.

Definition sameChar (casefold : bool) (c d : ascii) : bool :=
  if casefold then bool_decide (foldCase c = foldCase d) else bool_decide (c = d).

(** Glob matching of a whole name against a pattern of literal characters,
    [?] (any one character) and [*] (any run of characters).  No flag makes
    a leading period special, so [*] and [?] match it as any character. *)
Fixpoint glob (casefold : bool) (pattern name : string) : bool :=
  match pattern with
  | EmptyString => match name with EmptyString => true | _ => false end
  | String p pattern' =>
      if bool_decide (p = "*"%char) then
        (fix star (s : string) : bool :=
           glob casefold pattern' s ||
           match s with
           | EmptyString => false
           | String _ s' => star s'
           end) name
      else
        match name with
        | EmptyString => false
        | String c name' =>
            (bool_decide (p = "?"%char) || sameChar casefold p c)
            && glob casefold pattern' name'
        end
  end.

(** An instance of libc's [fnmatch (pattern, string, flags)] for patterns
    of literals, [?] and [*]: 0 on a match, [FNM_NOMATCH] otherwise;
    bit 4 of the flags is [FNM_CASEFOLD]. *)
Definition fnmatch_glob (pattern name : string) (flags : Z) : Z :=
  if glob (Z.testbit flags 4) pattern name then 0 else FNM_NOMATCH.

(** ** File operations *)

Module FileOps.

(** Modelled from the spec: [File::exists] is defined with the class [File],
    outside the sources at hand.  A file exists when its path is not empty
    and the operating system finds something at it. *)
Definition exists_ (fs : FileSystem) (f : File) : bool :=
  negb (bool_decide (getFullPathName f = EmptyString))
  && access_F_OK fs (getFullPathName f).

(** Modelled from the spec: [File::getSize] is defined with the class [File],
    outside the sources at hand.  It is the size [stat] reports, and 0 when
    [stat] fails (a file that does not exist has size 0). *)
Definition getSize (fs : FileSystem) (f : File) : Z :=
  match stat fs (getFullPathName f) with
  | inl m => st_size m
  | inr _ => 0
  end.

Definition isDotEntry (name : string) : bool :=
  bool_decide (name = ".") || bool_decide (name = "..").

(** Modelled from the spec: [File::deleteFile] is defined with the class
    [File], outside the sources at hand.  The spec's step "delete any
    pre-existing destination" succeeds when nothing exists at the path;
    otherwise it removes the file (or the directory, when it is empty) and
    fails when the operating system refuses. *)
Definition deleteFile (fs : FileSystem) (f : File) : bool * FileSystem :=
  let path := getFullPathName f in
  if negb (exists_ fs f) then (true, fs)
  else if bool_decide (path ∈ locked fs) then (false, fs)
  else match nodes fs !! path with
       | Some (Directory entries) =>
           if forallb isDotEntry entries
           then (true, withNodes fs (delete path (nodes fs)))
           else (false, fs)
       | _ => (true, withNodes fs (delete path (nodes fs)))
       end.

(** Modelled from the spec: [FileInputStream] is a class outside the sources
    at hand.  The spec's step "open source for streaming read": the stream
    delivers the bytes the file holds when it is opened, and nothing when
    the file cannot be opened. *)
Record FileInputStream := mkFileInputStream { in_bytes : list Byte.byte }.

Definition FileInputStream_new (fs : FileSystem) (f : File) : FileInputStream :=
  let path := getFullPathName f in
  if reachable fs path then mkFileInputStream (default [] (fileBytes fs path))
  else mkFileInputStream [].

(** Modelled from the spec: [FileOutputStream] is a class outside the sources
    at hand.  The spec's step "open destination for streaming write": a file
    that is not there is created empty; a file that is there is written at
    its end.  Opening fails when the path cannot be reached, when nothing
    can be created at it, when it is a directory, or when the file cannot be
    written to. *)
Record FileOutputStream := mkFileOutputStream {
  out_path : string;
  out_opened : bool
}.

Definition FileOutputStream_new (fs : FileSystem) (f : File)
  : FileOutputStream * FileSystem :=
  let path := getFullPathName f in
  if negb (reachable fs path) then (mkFileOutputStream path false, fs)
  else match nodes fs !! path with
       | Some (Directory _) => (mkFileOutputStream path false, fs)
       | Some (RegularFile _) =>
           if bool_decide (path ∈ readOnly fs)
           then (mkFileOutputStream path false, fs)
           else (mkFileOutputStream path true, fs)
       | None =>
           if bool_decide (path ∈ locked fs)
           then (mkFileOutputStream path false, fs)
           else (mkFileOutputStream path true,
                 withNodes fs (<[path := RegularFile []]> (nodes fs)))
       end.

Definition failedToOpen (out : FileOutputStream) : bool := negb (out_opened out).

(** Modelled from the spec: [OutputStream::writeFromInputStream] is defined
    outside the sources at hand.  The spec's step "stream all bytes from
    source to destination", with its result the number of bytes written: a
    negative [numBytesToWrite] asks for every byte of the source; the device
    accepts [writeLimit] bytes and refuses the rest. *)
Definition writeFromInputStream (fs : FileSystem) (out : FileOutputStream)
    (source : FileInputStream) (numBytesToWrite : Z) : Z * FileSystem :=
  if out_opened out then
    let wanted := if numBytesToWrite <? 0 then in_bytes source
                  else take (Z.to_nat numBytesToWrite) (in_bytes source) in
    let written := take (writeLimit fs) wanted in
    let old := default [] (fileBytes fs (out_path out)) in
    (Z.of_nat (length written),
     withNodes fs (<[out_path out := RegularFile (old ++ written)]> (nodes fs)))
  else (0, fs).

(** [File::copyInternal].  The input stream is opened first; the size of the
    source is read after the bytes were streamed. *)
Definition copyInternal (fs : FileSystem) (this dest : File) : bool * FileSystem :=
  let in_ := FileInputStream_new fs this in
  let '(deleted, fs1) := deleteFile fs dest in
  if deleted then
    let '(out, fs2) := FileOutputStream_new fs1 dest in
    if failedToOpen out then (false, fs2)
    else
      let '(numWritten, fs3) := writeFromInputStream fs2 out in_ (-1) in
      if numWritten =? getSize fs3 this then (true, fs3)
      else (false, snd (deleteFile fs3 dest))
  else (false, fs1).

(** [File::findFileSystemRoots]: the root is added to the array. *)
Definition findFileSystemRoots (destArray : list File) : list File :=
  destArray ++ [mkFile "/"].

(** [File::getVersion]: [String::empty]. *)
Definition getVersion (_ : File) : string := EmptyString.

(** [File::isOnCDRomDrive], [File::isOnHardDisk], [File::isOnRemovableDrive]. *)
Definition isOnCDRomDrive (_ : File) : bool := false.
Definition isOnHardDisk (_ : File) : bool := true.
Definition isOnRemovableDrive (_ : File) : bool := false.

(** [File::isHidden]. *)
Definition isHidden (f : File) : bool := startsWithChar (getFileName f) "."%char.

(** [File::moveToTrash]. *)
Definition moveToTrash (fs : FileSystem) (this : File) : bool :=
  if negb (exists_ fs this) then true else false.

Section Links.

(** [File::getSiblingFile], taken as given. *)
Variable getSiblingFile : File -> string -> File.

(** [String::fromUTF8 (buffer, numBytes)]: the first [numBytes] bytes. *)
Definition fromUTF8 (buffer : string) (numBytes : Z) : string :=
  String.substring 0 (Z.to_nat numBytes) buffer.

(** [juce_readlink].  The result of [readlink] is stored in a [size_t],
    so -1 becomes the largest value of that type and fails the test
    against [size]. *)
Definition juce_readlink (fs : FileSystem) (file : string) (defaultFile : File) : File :=
  let size := 8192 in
  let '(result, buffer) := readlink fs file size in
  let numBytes := to_size_t result in
  if (0 <? numBytes) && (numBytes <=? to_size_t size)
  then getSiblingFile (mkFile file) (fromUTF8 buffer numBytes)
  else defaultFile.

(** [File::getLinkedTarget]. *)
Definition getLinkedTarget (fs : FileSystem) (this : File) : File :=
  juce_readlink fs (getFullPathName this) this.

End Links.

(** The values of the enum [File::SpecialLocationType].  A variable of the
    enum type can hold an integer that is none of the enumerators;
    [unknownLocation] stands for such a value. *)
Inductive SpecialLocationType :=
  | userHomeDirectory
  | userDocumentsDirectory
  | userDesktopDirectory
  | userApplicationDataDirectory
  | commonApplicationDataDirectory
  | tempDirectory
  | currentExecutableFile
  | currentApplicationFile
  | invokedExecutableFile
  | hostApplicationPath
  | globalApplicationsDirectory
  | userMusicDirectory
  | userMoviesDirectory
  | unknownLocation (n : Z).

(** What the function reads from its surroundings: the global
    [android.appDataDir], the result of [juce_getExecutableFile()], and
    whether this is a debug build. *)
Record Platform := mkPlatform {
  appDataDir : string;
  juce_getExecutableFile : File;
  JUCE_DEBUG : bool
}.

(** A returned file, and whether an assertion was hit on the way. *)
Record Returned := mkReturned { assertionHit : bool; value : File }.

(** Modelled from the spec: the macro [jassertfalse] is defined outside the
    sources at hand.  The spec has an unmapped value "fail fast in debug
    builds": the macro is an assertion failure in a debug build and nothing
    in a release build. *)
Definition jassertfalse (env : Platform) : bool := JUCE_DEBUG env.

(** [File::getSpecialLocation]. *)
Definition getSpecialLocation (env : Platform) (type : SpecialLocationType) : Returned :=
  match type with
  | userHomeDirectory
  | userDocumentsDirectory
  | userMusicDirectory
  | userMoviesDirectory
  | userApplicationDataDirectory => mkReturned false (mkFile (appDataDir env))
  | userDesktopDirectory => mkReturned false (mkFile "~/Desktop")
  | commonApplicationDataDirectory => mkReturned false (mkFile (appDataDir env))
  | globalApplicationsDirectory => mkReturned false (mkFile "/usr")
  | tempDirectory => mkReturned false (mkFile "~/.temp")
  | invokedExecutableFile
  | currentExecutableFile
  | currentApplicationFile
  | hostApplicationPath => mkReturned false (juce_getExecutableFile env)
  | unknownLocation _ => mkReturned (jassertfalse env) nonexistent
  end.

End FileOps.

(** ** The native directory iterator *)

Module NativeIterator.

(** An output parameter of pointer type: [None] is the null pointer,
    [Some v] points to a variable of the caller that holds [v]. *)
Definition ptr (A : Type) : Type := option A.

(** [if (p != 0) *p = v]. *)
Definition store {A : Type} (p : ptr A) (v : A) : ptr A :=
  match p with
  | None => None
  | Some _ => Some v
  end.

(** The variables of the caller that [next] writes to: the reference
    [filenameFound] and the six pointers.  The size is an [int64]; a [Time]
    is its number of milliseconds. *)
Record Args := mkArgs {
  filenameFound : string;
  isDir : ptr bool;
  isHidden : ptr bool;
  fileSize : ptr Z;
  modTime : ptr Z;
  creationTime : ptr Z;
  isReadOnly : ptr bool
}.

Definition setFilenameFound (a : Args) (name : string) : Args :=
  mkArgs name (isDir a) (isHidden a) (fileSize a) (modTime a)
         (creationTime a) (isReadOnly a).

Definition setIsHidden (a : Args) (p : ptr bool) : Args :=
  mkArgs (filenameFound a) (isDir a) p (fileSize a) (modTime a)
         (creationTime a) (isReadOnly a).

(** Modelled from the spec: [updateStatInfoForFile] is shared POSIX code
    outside the sources at hand.  The spec fills the metadata of an entry
    from [stat] on the joined path.  For a failure of [stat] the spec has
    the size and the times at [None]; the variables they are written to
    are an [int64] and two [Time]s, which have no such value, and are set
    to zero.  The directory flag is then false, and the entry counts as
    read-only, as everything that cannot be written to.  [filenameFound]
    and [isHidden] are not its arguments. *)
Definition updateStatInfoForFile (fs : FileSystem) (path : string) (a : Args) : Args :=
  match stat fs path with
  | inl m =>
      mkArgs (filenameFound a)
             (store (isDir a) (st_isDir m))
             (isHidden a)
             (store (fileSize a) (st_size m))
             (store (modTime a) (st_mtime m))
             (store (creationTime a) (st_ctime m))
             (store (isReadOnly a) (st_readOnly m))
  | inr _ =>
      mkArgs (filenameFound a)
             (store (isDir a) false)
             (isHidden a)
             (store (fileSize a) 0)
             (store (modTime a) 0)
             (store (creationTime a) 0)
             (store (isReadOnly a) true)
  end.

(** The members of [Pimpl]; [dir] is [None] when [opendir] returned null. *)
Record Pimpl := mkPimpl {
  parentDir : string;
  wildCard : string;
  wildcardUTF8 : string;
  dir : option DIR
}.

Definition setDir (p : Pimpl) (d : DIR) : Pimpl :=
  mkPimpl (parentDir p) (wildCard p) (wildcardUTF8 p) (Some d).

(** The constructor [Pimpl (directory, wildCard_)].  Why [opendir] failed is
    dropped: the member is the returned pointer. *)
Definition Pimpl_new (fs : FileSystem) (directory : File) (wildCard_ : string) : Pimpl :=
  mkPimpl (addTrailingSeparator (getFullPathName directory))
          wildCard_
          wildCard_
          (match opendir fs (getFullPathName directory) with
           | inl d => Some d
           | inr _ => None
           end).

Section Matching.

(** libc's [fnmatch (pattern, string, flags)]. *)
Variable fnmatch : string -> string -> Z -> Z.

(** Whether [next] takes the entry. *)
Definition matches (p : Pimpl) (d_name : string) : bool :=
  fnmatch (wildcardUTF8 p) d_name FNM_CASEFOLD =? 0.

(** The loop [for (;;)] of [next] on the entries still in the stream: each
    round reads one entry with [readdir]; the loop ends at the first entry
    that matches, or at the end of the stream. *)
Fixpoint nextLoop (fs : FileSystem) (p : Pimpl) (stream : DIR) (a : Args)
  : bool * DIR * Args :=
  match stream with
  | [] => (false, [], a)
  | d_name :: rest =>
      if matches p d_name then
        let a1 := setFilenameFound a d_name in
        let a2 := updateStatInfoForFile fs (parentDir p +:+ filenameFound a1) a1 in
        let a3 := setIsHidden a2
                    (store (isHidden a2)
                           (startsWithChar (filenameFound a2) "."%char)) in
        (true, rest, a3)
      else nextLoop fs p rest a
  end.

(** [Pimpl::next]: the result, the iterator after the call, and the
    caller's variables after the call. *)
Definition next (fs : FileSystem) (p : Pimpl) (a : Args) : bool * Pimpl * Args :=
  match dir p with
  | Some stream =>
      let '(found, stream', a') := nextLoop fs p stream a in
      (found, setDir p stream', a')
  | None => (false, p, a)
  end.

(** A caller's loop [while (iterator.next (...))], run for at most [fuel]
    calls: the caller's variables after each call that returned true. *)
Fixpoint walk (fuel : nat) (fs : FileSystem) (p : Pimpl) (a : Args) : list Args :=
  match fuel with
  | O => []
  | S fuel' =>
      let '(found, p', a') := next fs p a in
      if found then a' :: walk fuel' fs p' a' else []
  end.

(** The results of [n] calls in a row. *)
Fixpoint nextResults (n : nat) (fs : FileSystem) (p : Pimpl) (a : Args) : list bool :=
  match n with
  | O => []
  | S n' =>
      let '(found, p', a') := next fs p a in
      found :: nextResults n' fs p' a'
  end.

End Matching.

(** [Pimpl::~Pimpl]: the streams handed to [closedir]; a null [dir] is not
    closed. *)
Definition Pimpl_delete (p : Pimpl) : list DIR :=
  match dir p with
  | Some d => [d]
  | None => []
  end.

Section Calls.

(** libc's [fnmatch (pattern, string, flags)]. *)
Variable fnmatch : string -> string -> Z -> Z.

(** The iterator after a run of calls of [next], each with the file system
    of its moment and the variables its caller passes. *)
Fixpoint afterCalls (calls : list (FileSystem * Args)) (p : Pimpl) : Pimpl :=
  match calls with
  | [] => p
  | (fs, a) :: calls' => afterCalls calls' (snd (fst (next fnmatch fs p a)))
  end.

End Calls.

End NativeIterator.

(** ** Concrete file systems *)

Module Samples.

Import FileOps NativeIterator.

(** A caller that passes a variable for every output of [next]. *)
Definition allOutputs : Args :=
  mkArgs "" (Some false) (Some false) (Some 0) (Some 0) (Some 0) (Some false).

(** A caller that passes null for every pointer. *)
Definition nameOnly : Args := mkArgs "" None None None None None None.

Definition abc : list Byte.byte := [Byte.x61; Byte.x62; Byte.x63].

(** The directory of the spec's scenario: [/tmp/x] with [a.txt], [B.TXT]
    and [.hidden], listed after the two entries every directory has. *)
Definition tmpxNodes : gmap string Node :=
  {[ "/tmp/x" := Directory ["."; ".."; "a.txt"; "B.TXT"; ".hidden"];
     "/tmp/x/a.txt" := RegularFile abc;
     "/tmp/x/B.TXT" := RegularFile [Byte.x42];
     "/tmp/x/.hidden" := RegularFile [] ]}.

Definition tmpx : FileSystem :=
  mkFileSystem tmpxNodes ∅ {[ "/tmp/x/a.txt" := (1000, 900) ]} ∅ ∅ ∅ 4096%nat 4096.

(** The same files on a device that accepts two more bytes. *)
Definition fullDisk : FileSystem :=
  mkFileSystem tmpxNodes ∅ ∅ ∅ ∅ ∅ 2%nat 4096.

(** [/tmp/x] when it cannot be searched. *)
Definition noPermission : FileSystem :=
  mkFileSystem tmpxNodes ∅ ∅ ∅ ∅ {[ "/tmp/x" ]} 4096%nat 4096.

(** A regular file where [tmpx] has the directory. *)
Definition plainFile : FileSystem :=
  mkFileSystem {[ "/tmp/x" := RegularFile abc ]} ∅ ∅ ∅ ∅ ∅ 4096%nat 4096.

(** Nothing at all. *)
Definition nothing : FileSystem := mkFileSystem ∅ ∅ ∅ ∅ ∅ ∅ 4096%nat 4096.

(** Two links that point at each other, a link to a link, and a link to a
    regular file. *)
Definition linked : FileSystem :=
  mkFileSystem
    {[ "/d/file" := RegularFile abc ]}
    {[ "/d/a" := "b"; "/d/b" := "a"; "/d/first" := "second";
       "/d/second" := "file" ]}
    ∅ ∅ ∅ ∅ 4096%nat 4096.

Definition releaseBuild : Platform :=
  mkPlatform "/data/data/app" (mkFile "/data/app/app.apk") false.

Definition debugBuild : Platform :=
  mkPlatform "/data/data/app" (mkFile "/data/app/app.apk") true.

End Samples.

(** Two file systems that differ at most in what is at one path. *)
Definition sameExceptAt (path : string) (fs fs' : FileSystem) : Prop :=
  exists m : gmap string Node,
    fs' = withNodes fs m
    /\ forall q, q <> path -> m !! q = nodes fs !! q.

(** ** Edge flags of a button *)

Module Button.

(** The enum [Button::ConnectedEdgeFlags]. *)
Definition ConnectedOnLeft : Z := 1.
Definition ConnectedOnRight : Z := 2.
Definition ConnectedOnTop : Z := 4.
Definition ConnectedOnBottom : Z := 8.

(** [Button::isConnectedOnLeft] and its three siblings, as functions of the
    member [connectedEdgeFlags]. *)
Definition isConnectedOnLeft (connectedEdgeFlags : Z) : bool :=
  negb (Z.land connectedEdgeFlags ConnectedOnLeft =? 0).

Definition isConnectedOnRight (connectedEdgeFlags : Z) : bool :=
  negb (Z.land connectedEdgeFlags ConnectedOnRight =? 0).

Definition isConnectedOnTop (connectedEdgeFlags : Z) : bool :=
  negb (Z.land connectedEdgeFlags ConnectedOnTop =? 0).

Definition isConnectedOnBottom (connectedEdgeFlags : Z) : bool :=
  negb (Z.land connectedEdgeFlags ConnectedOnBottom =? 0).

End Button.

(** ** More concrete inputs *)

Module MoreSamples.

Fixpoint repeatString (n : nat) (s : string) : string :=
  match n with
  | O => EmptyString
  | S n' => s +:+ repeatString n' s
  end.

(** A text of 9600 bytes, longer than the buffer of [juce_readlink]. *)
Definition longText : string := repeatString 600 "0123456789abcdef".

(** A link with an over-long text and a link with an empty text. *)
Definition oddLinks : FileSystem :=
  mkFileSystem ∅ {[ "/d/long" := longText; "/d/empty" := "" ]}
               ∅ ∅ ∅ ∅ 4096%nat 4096.

(** [/tmp/x] of [Samples.tmpx] where nothing can be created or removed at
    [/tmp/x/B.TXT]. *)
Definition lockedDest : FileSystem :=
  mkFileSystem Samples.tmpxNodes ∅ ∅ ∅ {[ "/tmp/x/B.TXT" ]} ∅ 4096%nat 4096.

(** A directory that lists a link, [broken.txt], to a file that is not
    there: [readdir] reports the link and [stat], which follows it, fails. *)
Definition brokenLink : FileSystem :=
  mkFileSystem
    {[ "/tmp/y" := Directory ["."; ".."; "broken.txt"; "a.txt"];
       "/tmp/y/a.txt" := RegularFile Samples.abc ]}
    {[ "/tmp/y/broken.txt" := "gone.txt" ]}
    ∅ ∅ ∅ ∅ 4096%nat 4096.

End MoreSamples.

(** * Properties *)

Import FileOps NativeIterator.

(** ** Paths *)

Lemma containsChar_append_ends r name c :
  endsWithChar r c = true -> containsChar (r +:+ name) c = true.
Proof.
  induction r as [|d r IH]; simpl; [discriminate|].
  destruct r as [|d' r'].
  - intros ->. reflexivity.
  - intros H. rewrite (IH H). apply orb_true_r.
Qed.

Lemma lastSegment_join d name :
  endsWithChar d separator = true ->
  containsChar name separator = false ->
  lastSegment (d +:+ name) = name.
Proof.
  intros Hd Hname. induction d as [|c r IH]; [discriminate|].
  destruct r as [|c' r'].
  - simpl in Hd. change (lastSegment (String c name) = name).
    cbn [lastSegment]. rewrite Hname, Hd. reflexivity.
  - change (lastSegment (String c (String c' r' +:+ name)) = name).
    assert (endsWithChar (String c' r') separator = true) as Hd' by exact Hd.
    cbn [lastSegment]. rewrite (containsChar_append_ends _ name _ Hd').
    apply IH. exact Hd'.
Qed.

Lemma endsWithChar_append_char s c :
  endsWithChar (s +:+ String c EmptyString) c = true.
Proof.
  induction s as [|d r IH]; simpl.
  - apply bool_decide_eq_true. reflexivity.
  - destruct r as [|d' r']; simpl in *; exact IH.
Qed.

Lemma endsWithChar_addTrailingSeparator path :
  endsWithChar (addTrailingSeparator path) separator = true.
Proof.
  unfold addTrailingSeparator.
  destruct (endsWithChar path separator) eqn:H; [exact H|].
  apply endsWithChar_append_char.
Qed.

(** ** The directory iterator *)

Section Iterator.

Variable fnmatch : string -> string -> Z -> Z.

Lemma filenameFound_updateStatInfoForFile fs path a :
  filenameFound (updateStatInfoForFile fs path a) = filenameFound a.
Proof. unfold updateStatInfoForFile. destruct (stat fs path); reflexivity. Qed.

Lemma isHidden_updateStatInfoForFile fs path a :
  NativeIterator.isHidden (updateStatInfoForFile fs path a) = NativeIterator.isHidden a.
Proof. unfold updateStatInfoForFile. destruct (stat fs path); reflexivity. Qed.

(** The variables of the caller after [next] took the entry [d_name]. *)
Lemma nextLoop_found fs p stream a rest a' :
  nextLoop fnmatch fs p stream a = (true, rest, a') ->
  exists skipped,
    stream = skipped ++ filenameFound a' :: rest
    /\ List.filter (matches fnmatch p) skipped = []
    /\ matches fnmatch p (filenameFound a') = true
    /\ a' = setIsHidden
              (updateStatInfoForFile fs (parentDir p +:+ filenameFound a')
                 (setFilenameFound a (filenameFound a')))
              (store (NativeIterator.isHidden a)
                     (startsWithChar (filenameFound a') "."%char)).
Proof.
  induction stream as [|d_name stream IH]; simpl; [discriminate|].
  destruct (matches fnmatch p d_name) eqn:Hm.
  - intros H. injection H as <- <-. exists []. simpl.
    rewrite !filenameFound_updateStatInfoForFile,
            isHidden_updateStatInfoForFile. simpl.
    repeat split; assumption || reflexivity.
  - intros H. destruct (IH H) as (skipped & -> & Hs & Hm' & Ha).
    exists (d_name :: skipped). simpl. rewrite Hm. auto.
Qed.

Lemma nextLoop_not_found fs p stream a rest a' :
  nextLoop fnmatch fs p stream a = (false, rest, a') ->
  rest = [] /\ a' = a /\ List.filter (matches fnmatch p) stream = [].
Proof.
  induction stream as [|d_name stream IH]; simpl.
  - intros H. injection H as <- <-. auto.
  - destruct (matches fnmatch p d_name) eqn:Hm; [discriminate|]. exact IH.
Qed.

(** One round of the loop, in terms of [readdir]. *)
Lemma nextLoop_readdir fs p stream a :
  nextLoop fnmatch fs p stream a
  = match readdir stream with
    | (None, stream') => (false, stream', a)
    | (Some d_name, stream') =>
        if fnmatch (wildcardUTF8 p) d_name FNM_CASEFOLD =? 0
        then (true, stream',
              setIsHidden
                (updateStatInfoForFile fs (parentDir p +:+ d_name)
                   (setFilenameFound a d_name))
                (store (NativeIterator.isHidden a)
                       (startsWithChar d_name "."%char)))
        else nextLoop fnmatch fs p stream' a
    end.
Proof.
  destruct stream as [|d_name rest]; simpl; [reflexivity|].
  unfold matches. destruct (fnmatch _ _ _ =? 0); [|reflexivity].
  rewrite !filenameFound_updateStatInfoForFile,
          isHidden_updateStatInfoForFile. reflexivity.
Qed.

(** A walk with enough fuel yields the matching entries of the stream,
    in the order of the stream, whatever [stat] says about them. *)
Lemma walk_names fs : forall fuel p a stream,
  dir p = Some stream ->
  (length stream < fuel)%nat ->
  List.map filenameFound (walk fnmatch fuel fs p a)
  = List.filter (matches fnmatch p) stream.
Proof.
  induction fuel as [|fuel IH]; intros p a stream Hdir Hfuel; [lia|].
  simpl. unfold next. rewrite Hdir.
  destruct (nextLoop fnmatch fs p stream a) as [[found rest] a'] eqn:Hloop.
  destruct found.
  - apply nextLoop_found in Hloop as (skipped & -> & Hs & Hm & _).
    rewrite List.filter_app, Hs. simpl. rewrite Hm. f_equal.
    rewrite (IH (setDir p rest) a' rest); [reflexivity|reflexivity|].
    rewrite length_app in Hfuel. simpl in Hfuel. lia.
  - apply nextLoop_not_found in Hloop as (_ & _ & ->). reflexivity.
Qed.

Lemma next_found fs p a p' a' :
  next fnmatch fs p a = (true, p', a') ->
  exists stream skipped rest,
    dir p = Some stream
    /\ p' = setDir p rest
    /\ stream = skipped ++ filenameFound a' :: rest
    /\ matches fnmatch p (filenameFound a') = true
    /\ a' = setIsHidden
              (updateStatInfoForFile fs (parentDir p +:+ filenameFound a')
                 (setFilenameFound a (filenameFound a')))
              (store (NativeIterator.isHidden a)
                     (startsWithChar (filenameFound a') "."%char)).
Proof.
  unfold next. destruct (dir p) as [stream|]; [|discriminate].
  destruct (nextLoop fnmatch fs p stream a) as [[found rest] a1] eqn:Hloop.
  intros H. injection H as -> <- <-.
  apply nextLoop_found in Hloop as (skipped & Hs & _ & Hm & Ha).
  exists stream, skipped, rest. auto.
Qed.

Lemma next_not_found fs p a p' a' :
  next fnmatch fs p a = (false, p', a') ->
  a' = a /\ (p' = p /\ dir p = None \/ p' = setDir p [] /\ dir p <> None).
Proof.
  unfold next. destruct (dir p) as [stream|].
  - destruct (nextLoop fnmatch fs p stream a) as [[found rest] a1] eqn:Hloop.
    intros H. injection H as -> <- <-.
    apply nextLoop_not_found in Hloop as (-> & -> & _). auto.
  - intros H. injection H as <- <-. auto.
Qed.

(** C1, as amended.  For a directory that opens, the names the iterator
    yields are the names [readdir] reports for the directory that
    [fnmatch] accepts for the wildcard under [FNM_CASEFOLD], in the order
    [readdir] reports them.  No entry is left out for another reason:
    "." and ".." are yielded whenever the wildcard accepts them. *)
Theorem walk_yields_matching_entries fs directory wildCard_ entries fuel a :
  opendir fs (getFullPathName directory) = inl entries ->
  (length entries < fuel)%nat ->
  List.map filenameFound
    (walk fnmatch fuel fs (Pimpl_new fs directory wildCard_) a)
  = List.filter (fun name => fnmatch wildCard_ name FNM_CASEFOLD =? 0) entries.
Proof.
  intros Hopen Hfuel.
  rewrite (walk_names fs fuel _ a entries); [reflexivity| |exact Hfuel].
  unfold Pimpl_new. rewrite Hopen. reflexivity.
Qed.

(** Two runs of the loop of [next] on the same stream, over two file
    systems: they differ at most in what [updateStatInfoForFile] wrote. *)
Lemma nextLoop_ignores_stat fs fs2 p : forall stream a1 a2,
  filenameFound a1 = filenameFound a2 ->
  NativeIterator.isHidden a1 = NativeIterator.isHidden a2 ->
  fst (nextLoop fnmatch fs p stream a1) = fst (nextLoop fnmatch fs2 p stream a2)
  /\ filenameFound (snd (nextLoop fnmatch fs p stream a1))
     = filenameFound (snd (nextLoop fnmatch fs2 p stream a2))
  /\ NativeIterator.isHidden (snd (nextLoop fnmatch fs p stream a1))
     = NativeIterator.isHidden (snd (nextLoop fnmatch fs2 p stream a2)).
Proof.
  induction stream as [|d_name stream IH]; intros a1 a2 Hname Hhidden; simpl;
    [auto|].
  destruct (matches fnmatch p d_name); [|apply IH; assumption]. simpl.
  rewrite !filenameFound_updateStatInfoForFile,
          !isHidden_updateStatInfoForFile. simpl. rewrite Hhidden. auto.
Qed.

Lemma walk_ignores_stat fs fs2 : forall fuel p a1 a2,
  filenameFound a1 = filenameFound a2 ->
  NativeIterator.isHidden a1 = NativeIterator.isHidden a2 ->
  List.map (fun e => (filenameFound e, NativeIterator.isHidden e))
    (walk fnmatch fuel fs p a1)
  = List.map (fun e => (filenameFound e, NativeIterator.isHidden e))
      (walk fnmatch fuel fs2 p a2).
Proof.
  induction fuel as [|fuel IH]; intros p a1 a2 Hname Hhidden; [reflexivity|].
  simpl. unfold next. destruct (dir p) as [stream|]; [|reflexivity].
  destruct (nextLoop_ignores_stat fs fs2 p stream a1 a2 Hname Hhidden)
    as (H1 & H2 & H3).
  destruct (nextLoop fnmatch fs p stream a1) as [[found rest] a1'].
  destruct (nextLoop fnmatch fs2 p stream a2) as [[found2 rest2] a2'].
  simpl in H1, H2, H3. injection H1 as -> ->.
  destruct found2; [|reflexivity]. simpl. rewrite H2, H3. f_equal.
  apply IH; assumption.
Qed.

(** C3, as amended.  When [stat] fails on the entry a call of [next]
    found, the call has returned true, the wildcard accepts the name, and
    the size, the modification time and the creation time that the caller
    asked for hold numbers: they are an [int64] and two [Time]s, and there
    is no [None] for them.  A walk yields every matching entry of the
    stream, whatever [stat] says about any of them: two file systems that
    list the same entries for a directory give walks with the same names
    and the same hidden flags, whatever else they differ in. *)
Theorem stat_failure_keeps_walk_going fs p a :
  (forall p' a' err,
      next fnmatch fs p a = (true, p', a') ->
      stat fs (parentDir p +:+ filenameFound a') = inr err ->
      matches fnmatch p (filenameFound a') = true
      /\ exists size mtime ctime : Z,
           fileSize a' = store (fileSize a) size
           /\ modTime a' = store (modTime a) mtime
           /\ creationTime a' = store (creationTime a) ctime)
  /\ (forall stream fuel,
         dir p = Some stream ->
         (length stream < fuel)%nat ->
         List.map filenameFound (walk fnmatch fuel fs p a)
         = List.filter (matches fnmatch p) stream)
  /\ (forall fs2 directory wildCard_ fuel,
         opendir fs2 (getFullPathName directory)
         = opendir fs (getFullPathName directory) ->
         List.map (fun e => (filenameFound e, NativeIterator.isHidden e))
           (walk fnmatch fuel fs2 (Pimpl_new fs2 directory wildCard_) a)
         = List.map (fun e => (filenameFound e, NativeIterator.isHidden e))
             (walk fnmatch fuel fs (Pimpl_new fs directory wildCard_) a)).
Proof.
  split; [|split].
  - intros p' a' err Hnext Hstat.
    apply next_found in Hnext as (stream & skipped & rest & _ & _ & _ & Hm & Ha).
    split; [exact Hm|].
    set (path := parentDir p +:+ filenameFound a') in *.
    set (name := filenameFound a') in Ha.
    rewrite Ha. unfold updateStatInfoForFile. rewrite Hstat.
    simpl. eauto 6.
  - intros stream fuel Hdir Hfuel. apply walk_names; assumption.
  - intros fs2 directory wildCard_ fuel Hsame.
    assert (Pimpl_new fs2 directory wildCard_ = Pimpl_new fs directory wildCard_)
      as -> by (unfold Pimpl_new; rewrite Hsame; reflexivity).
    apply walk_ignores_stat; reflexivity.
Qed.

(** C4.  Once [next] has returned false, the iterator no longer changes
    and every later call returns false and leaves the caller's variables
    alone, whatever the file system has become. *)
Theorem exhaustion_is_terminal fs p a p' a' :
  next fnmatch fs p a = (false, p', a') ->
  (forall fs2 a2, next fnmatch fs2 p' a2 = (false, p', a2))
  /\ (forall n fs2 a2, nextResults fnmatch n fs2 p' a2 = repeat false n).
Proof.
  intros Hnext.
  assert (forall fs2 a2, next fnmatch fs2 p' a2 = (false, p', a2)) as Hfix.
  { apply next_not_found in Hnext as (_ & [[-> Hdir] | [-> _]]).
    - intros fs2 a2. unfold next. rewrite Hdir. reflexivity.
    - intros fs2 a2. reflexivity. }
  split; [exact Hfix|].
  induction n as [|n IH]; intros fs2 a2; [reflexivity|].
  simpl. rewrite Hfix. f_equal. apply IH.
Qed.

(** C5, as amended.  When [opendir] fails, for whatever reason, the
    constructor still returns an iterator, with a null stream; the reason
    is not kept.  Every call of [next] on it returns false and changes
    nothing, as on a directory with no matching entry. *)
Theorem failed_open_is_silent fs directory wildCard_ err :
  opendir fs (getFullPathName directory) = inr err ->
  Pimpl_new fs directory wildCard_
  = mkPimpl (addTrailingSeparator (getFullPathName directory))
            wildCard_ wildCard_ None
  /\ (forall fs2 a,
         next fnmatch fs2 (Pimpl_new fs directory wildCard_) a
         = (false, Pimpl_new fs directory wildCard_, a))
  /\ (forall fuel fs2 a,
         walk fnmatch fuel fs2 (Pimpl_new fs directory wildCard_) a = []).
Proof.
  intros Hopen. unfold Pimpl_new. rewrite Hopen.
  split; [reflexivity|]. split; [reflexivity|].
  intros [|fuel] fs2 a; reflexivity.
Qed.

(** C8.  The flag a call of [next] writes through a non-null [isHidden]
    is true exactly when the name it found begins with '.', and the name
    was taken because the wildcard accepts it.  A walk yields an entry of
    the stream if and only if the wildcard accepts it, dotfile or not.
    The flag agrees with [File::isHidden] on the joined path. *)
Theorem hidden_flag_is_leading_dot fs p a :
  (forall p' a',
      next fnmatch fs p a = (true, p', a') ->
      NativeIterator.isHidden a'
      = store (NativeIterator.isHidden a)
              (startsWithChar (filenameFound a') "."%char)
      /\ matches fnmatch p (filenameFound a') = true)
  /\ (forall stream fuel name,
         dir p = Some stream ->
         (length stream < fuel)%nat ->
         (In name (List.map filenameFound (walk fnmatch fuel fs p a))
          <-> In name stream /\ matches fnmatch p name = true))
  /\ (forall directory name,
         containsChar name separator = false ->
         FileOps.isHidden (mkFile (addTrailingSeparator directory +:+ name))
         = startsWithChar name "."%char).
Proof.
  split; [|split].
  - intros p' a' Hnext.
    apply next_found in Hnext as (stream & skipped & rest & _ & _ & _ & Hm & Ha).
    split; [|exact Hm]. rewrite Ha at 1. reflexivity.
  - intros stream fuel name Hdir Hfuel.
    rewrite (walk_names fs fuel p a stream Hdir Hfuel).
    apply List.filter_In.
  - intros directory name Hname. unfold FileOps.isHidden, getFileName. simpl.
    rewrite lastSegment_join; [reflexivity| |exact Hname].
    apply endsWithChar_addTrailingSeparator.
Qed.

End Iterator.

(** The spec's scenario: [/tmp/x] holds [a.txt], [B.TXT] and [.hidden]; the
    wildcard [*.txt] yields [a.txt] and [B.TXT], neither of them hidden. *)
Example scenario_txt_files :
  List.map (fun a => (filenameFound a, NativeIterator.isHidden a))
    (walk fnmatch_glob 6 Samples.tmpx
       (Pimpl_new Samples.tmpx (mkFile "/tmp/x") "*.txt") Samples.allOutputs)
  = [("a.txt", Some false); ("B.TXT", Some false)].
Proof. vm_compute. reflexivity. Qed.

(** With null pointers the call writes the name only. *)
Example scenario_null_pointers :
  walk fnmatch_glob 6 Samples.tmpx
    (Pimpl_new Samples.tmpx (mkFile "/tmp/x") "?.TXT") Samples.nameOnly
  = [mkArgs "a.txt" None None None None None None;
     mkArgs "B.TXT" None None None None None None].
Proof. vm_compute. reflexivity. Qed.

(** C1, the claim as stated fails: over the directory [/tmp/x] with the
    wildcard [*], the iterator yields "." and "..". *)
Lemma walk_yields_dot_entries :
  List.map filenameFound
    (walk fnmatch_glob 6 Samples.tmpx
       (Pimpl_new Samples.tmpx (mkFile "/tmp/x") "*") Samples.allOutputs)
  = ["."; ".."; "a.txt"; "B.TXT"; ".hidden"]
  /\ In "."
       (List.map filenameFound
          (walk fnmatch_glob 6 Samples.tmpx
             (Pimpl_new Samples.tmpx (mkFile "/tmp/x") "*") Samples.allOutputs))
  /\ In ".."
       (List.map filenameFound
          (walk fnmatch_glob 6 Samples.tmpx
             (Pimpl_new Samples.tmpx (mkFile "/tmp/x") "*") Samples.allOutputs)).
Proof. vm_compute. auto 6. Qed.

Lemma walk_yields_matching_entries_witness :
  List.map filenameFound
    (walk fnmatch_glob 6 Samples.tmpx
       (Pimpl_new Samples.tmpx (mkFile "/tmp/x") "*.txt") Samples.allOutputs)
  = List.filter (fun name => fnmatch_glob "*.txt" name FNM_CASEFOLD =? 0)
      ["."; ".."; "a.txt"; "B.TXT"; ".hidden"].
Proof.
  apply walk_yields_matching_entries; [vm_compute; reflexivity | simpl; lia].
Defined.

(** C3, the claim as stated fails: [/tmp/y] lists [broken.txt], a link to
    a file that is not there, so [stat] fails on it; [next] surfaces the
    entry, and the caller's size and times are the numbers zero, not
    [None]. *)
Lemma stat_failure_leaves_numbers :
  stat MoreSamples.brokenLink "/tmp/y/broken.txt" = inr StatNotFound
  /\ fst (fst (next fnmatch_glob MoreSamples.brokenLink
                 (Pimpl_new MoreSamples.brokenLink (mkFile "/tmp/y") "*.txt")
                 Samples.allOutputs)) = true
  /\ filenameFound
       (snd (next fnmatch_glob MoreSamples.brokenLink
               (Pimpl_new MoreSamples.brokenLink (mkFile "/tmp/y") "*.txt")
               Samples.allOutputs)) = "broken.txt"
  /\ fileSize
       (snd (next fnmatch_glob MoreSamples.brokenLink
               (Pimpl_new MoreSamples.brokenLink (mkFile "/tmp/y") "*.txt")
               Samples.allOutputs)) = Some 0
  /\ modTime
       (snd (next fnmatch_glob MoreSamples.brokenLink
               (Pimpl_new MoreSamples.brokenLink (mkFile "/tmp/y") "*.txt")
               Samples.allOutputs)) = Some 0
  /\ creationTime
       (snd (next fnmatch_glob MoreSamples.brokenLink
               (Pimpl_new MoreSamples.brokenLink (mkFile "/tmp/y") "*.txt")
               Samples.allOutputs)) = Some 0.
Proof. vm_compute. repeat split; reflexivity. Qed.

Lemma stat_failure_keeps_walk_going_witness :
  (matches fnmatch_glob
     (Pimpl_new MoreSamples.brokenLink (mkFile "/tmp/y") "*.txt") "broken.txt"
   = true
   /\ exists size mtime ctime : Z,
        fileSize (mkArgs "broken.txt" (Some false) (Some false) (Some 0)
                         (Some 0) (Some 0) (Some true))
        = store (fileSize Samples.allOutputs) size
        /\ modTime (mkArgs "broken.txt" (Some false) (Some false) (Some 0)
                           (Some 0) (Some 0) (Some true))
           = store (modTime Samples.allOutputs) mtime
        /\ creationTime (mkArgs "broken.txt" (Some false) (Some false) (Some 0)
                                (Some 0) (Some 0) (Some true))
           = store (creationTime Samples.allOutputs) ctime)
  /\ List.map filenameFound
       (walk fnmatch_glob 5 MoreSamples.brokenLink
          (Pimpl_new MoreSamples.brokenLink (mkFile "/tmp/y") "*.txt")
          Samples.allOutputs)
     = List.filter
         (matches fnmatch_glob
            (Pimpl_new MoreSamples.brokenLink (mkFile "/tmp/y") "*.txt"))
         ["."; ".."; "broken.txt"; "a.txt"].
Proof.
  destruct (stat_failure_keeps_walk_going fnmatch_glob MoreSamples.brokenLink
              (Pimpl_new MoreSamples.brokenLink (mkFile "/tmp/y") "*.txt")
              Samples.allOutputs) as (Hstat & Hwalk & _).
  split.
  - apply (Hstat (mkPimpl "/tmp/y/" "*.txt" "*.txt" (Some ["a.txt"]))
             (mkArgs "broken.txt" (Some false) (Some false) (Some 0)
                     (Some 0) (Some 0) (Some true))
             StatNotFound); vm_compute; reflexivity.
  - apply Hwalk; [vm_compute; reflexivity | simpl; lia].
Defined.

Lemma exhaustion_is_terminal_witness :
  next fnmatch_glob Samples.tmpx
    (Pimpl_new Samples.tmpx (mkFile "/tmp/x") "*.pdf") Samples.allOutputs
  = (false, mkPimpl "/tmp/x/" "*.pdf" "*.pdf" (Some []), Samples.allOutputs)
  /\ nextResults fnmatch_glob 3 Samples.tmpx
       (mkPimpl "/tmp/x/" "*.pdf" "*.pdf" (Some [])) Samples.allOutputs
     = [false; false; false].
Proof.
  assert (next fnmatch_glob Samples.tmpx
            (Pimpl_new Samples.tmpx (mkFile "/tmp/x") "*.pdf") Samples.allOutputs
          = (false, mkPimpl "/tmp/x/" "*.pdf" "*.pdf" (Some []),
             Samples.allOutputs)) as Hnext by (vm_compute; reflexivity).
  split; [exact Hnext|].
  apply (proj2 (exhaustion_is_terminal fnmatch_glob _ _ _ _ _ Hnext) 3%nat).
Defined.

(** C5, the claim as stated fails: a path with nothing at it, a path with
    a regular file at it and a directory that cannot be searched make
    [opendir] fail for three different reasons, and the three iterators are
    one and the same value, on which [next] returns false: the caller is
    told nothing. *)
Lemma open_errors_not_distinguished :
  opendir Samples.nothing "/tmp/x" = inr NotFound
  /\ opendir Samples.plainFile "/tmp/x" = inr NotADirectory
  /\ opendir Samples.noPermission "/tmp/x" = inr PermissionDenied
  /\ Pimpl_new Samples.nothing (mkFile "/tmp/x") "*"
     = Pimpl_new Samples.plainFile (mkFile "/tmp/x") "*"
  /\ Pimpl_new Samples.nothing (mkFile "/tmp/x") "*"
     = Pimpl_new Samples.noPermission (mkFile "/tmp/x") "*"
  /\ next fnmatch_glob Samples.nothing
       (Pimpl_new Samples.nothing (mkFile "/tmp/x") "*") Samples.allOutputs
     = (false, mkPimpl "/tmp/x/" "*" "*" None, Samples.allOutputs).
Proof. vm_compute. repeat split; reflexivity. Qed.

Lemma failed_open_is_silent_witness :
  walk fnmatch_glob 5 Samples.tmpx
    (Pimpl_new Samples.plainFile (mkFile "/tmp/x") "*") Samples.allOutputs
  = [].
Proof.
  apply (failed_open_is_silent fnmatch_glob Samples.plainFile
           (mkFile "/tmp/x") "*" NotADirectory).
  vm_compute. reflexivity.
Defined.

Lemma hidden_flag_is_leading_dot_witness :
  NativeIterator.isHidden
    (mkArgs ".hidden" (Some false) (Some true) (Some 0) (Some 0)
            (Some 0) (Some false))
  = store (NativeIterator.isHidden Samples.allOutputs)
          (startsWithChar ".hidden" "."%char)
  /\ In ".hidden"
       (List.map filenameFound
          (walk fnmatch_glob 6 Samples.tmpx
             (Pimpl_new Samples.tmpx (mkFile "/tmp/x") "*") Samples.allOutputs)).
Proof.
  split.
  - apply (proj1 (hidden_flag_is_leading_dot fnmatch_glob Samples.tmpx
                    (Pimpl_new Samples.tmpx (mkFile "/tmp/x") ".H*")
                    Samples.allOutputs)
             (mkPimpl "/tmp/x/" ".H*" ".H*" (Some []))).
    vm_compute. reflexivity.
  - apply (proj1 (proj2 (hidden_flag_is_leading_dot fnmatch_glob Samples.tmpx
                           (Pimpl_new Samples.tmpx (mkFile "/tmp/x") "*")
                           Samples.allOutputs))
             ["."; ".."; "a.txt"; "B.TXT"; ".hidden"] 6%nat).
    + vm_compute. reflexivity.
    + simpl. lia.
    + split; [simpl; auto 6 | vm_compute; reflexivity].
Defined.

(** ** File operations *)

Lemma exists_without fs f m :
  m !! getFullPathName f = None -> exists_ (withNodes fs m) f = false.
Proof.
  intros Hm. unfold exists_, access_F_OK. simpl. rewrite Hm.
  rewrite (bool_decide_eq_false_2 (is_Some None)); [|apply is_Some_None].
  rewrite !andb_false_r. reflexivity.
Qed.

(** What [deleteFile] does, case by case. *)
Lemma deleteFile_cases fs f :
  (deleteFile fs f = (true, fs) /\ exists_ fs f = false)
  \/ (deleteFile fs f = (false, fs)
      /\ (getFullPathName f ∈ locked fs
          \/ exists entries, nodes fs !! getFullPathName f = Some (Directory entries)))
  \/ (deleteFile fs f
      = (true, withNodes fs (delete (getFullPathName f) (nodes fs)))
      /\ exists_ fs f = true
      /\ getFullPathName f ∉ locked fs).
Proof.
  unfold deleteFile.
  destruct (exists_ fs f) eqn:Hex; simpl; [|auto].
  case_bool_decide as Hlocked; [auto|].
  destruct (nodes fs !! getFullPathName f) as [[bytes|entries]|]; auto.
  destruct (forallb isDotEntry entries); eauto 6.
Qed.

Lemma deleteFile_true fs f fs' :
  deleteFile fs f = (true, fs') -> exists_ fs' f = false.
Proof.
  destruct (deleteFile_cases fs f) as [[-> Hex] | [[-> _] | [-> _]]];
    intros Heq; try discriminate; injection Heq as <-; [exact Hex|].
  apply exists_without, lookup_delete_eq.
Qed.

Lemma deleteFile_false fs f fs' :
  deleteFile fs f = (false, fs') -> fs' = fs.
Proof.
  destruct (deleteFile_cases fs f) as [[-> _] | [[-> _] | [-> _]]];
    intros Heq; try discriminate; injection Heq as <-; reflexivity.
Qed.

Lemma deleteFile_other fs f path :
  path <> getFullPathName f ->
  nodes (snd (deleteFile fs f)) !! path = nodes fs !! path.
Proof.
  intros Hne.
  destruct (deleteFile_cases fs f) as [[-> _] | [[-> _] | [-> _]]];
    simpl; try reflexivity.
  apply lookup_delete_ne. congruence.
Qed.

(** What opening the destination does once nothing exists at it. *)
Lemma FileOutputStream_new_cases fs f :
  exists_ fs f = false ->
  (FileOutputStream_new fs f = (mkFileOutputStream (getFullPathName f) false, fs))
  \/ (FileOutputStream_new fs f
      = (mkFileOutputStream (getFullPathName f) true,
         withNodes fs (<[getFullPathName f := RegularFile []]> (nodes fs)))
      /\ reachable fs (getFullPathName f) = true
      /\ nodes fs !! getFullPathName f = None
      /\ getFullPathName f ∉ locked fs).
Proof.
  intros Hex. unfold FileOutputStream_new.
  destruct (reachable fs (getFullPathName f)) eqn:Hreach; simpl; [|auto].
  destruct (nodes fs !! getFullPathName f) as [node|] eqn:Hnode.
  - exfalso. unfold exists_, access_F_OK in Hex. rewrite Hreach, Hnode in Hex.
    rewrite (bool_decide_eq_true_2 (is_Some (Some node))) in Hex by eauto.
    unfold reachable in Hreach. apply andb_true_iff in Hreach as [Hne _].
    rewrite Hne in Hex. discriminate.
  - case_bool_decide as Hlocked; auto.
Qed.

Lemma take_all_of_length {A} (n : nat) (l : list A) :
  length (take n l) = length l -> take n l = l.
Proof.
  rewrite length_take. intros H. apply take_ge. lia.
Qed.

Lemma stat_regular fs path bytes :
  reachable fs path = true ->
  nodes fs !! path = Some (RegularFile bytes) ->
  exists m, stat fs path = inl m /\ st_size m = Z.of_nat (length bytes).
Proof.
  unfold reachable, stat. intros Hreach Hnode.
  apply andb_true_iff in Hreach as [Hne Hden].
  apply negb_true_iff in Hne, Hden. rewrite Hne, Hden, Hnode.
  eexists. split; reflexivity.
Qed.

Lemma writeFromInputStream_fresh fs f source :
  writeFromInputStream
    (withNodes fs (<[getFullPathName f := RegularFile []]> (nodes fs)))
    (mkFileOutputStream (getFullPathName f) true) source (-1)
  = (Z.of_nat (length (take (writeLimit fs) (in_bytes source))),
     withNodes fs
       (<[getFullPathName f := RegularFile (take (writeLimit fs) (in_bytes source))]>
          (nodes fs))).
Proof.
  unfold writeFromInputStream, fileBytes. simpl.
  rewrite lookup_insert_eq. simpl. rewrite insert_insert_eq. reflexivity.
Qed.

(** What a call of [copyInternal] leaves behind, result by result. *)
Lemma copyInternal_outcomes fs this dest :
  (fst (deleteFile fs dest) = true ->
   fst (copyInternal fs this dest) = false ->
   exists_ (snd (copyInternal fs this dest)) dest = false)
  /\ (fst (copyInternal fs this dest) = true ->
      forall bytes,
        getFullPathName this <> getFullPathName dest ->
        reachable fs (getFullPathName this) = true ->
        fileBytes fs (getFullPathName this) = Some bytes ->
        fileBytes (snd (copyInternal fs this dest)) (getFullPathName dest)
        = Some bytes)
  /\ (getFullPathName this <> getFullPathName dest ->
      nodes (snd (copyInternal fs this dest)) !! getFullPathName this
      = nodes fs !! getFullPathName this).
Proof.
  unfold copyInternal.
  pose proof (deleteFile_other fs dest (getFullPathName this)) as Hsrc1.
  destruct (deleteFile fs dest) as [deleted fs1] eqn:Hdel.
  destruct deleted; simpl in Hsrc1.
  2:{ apply deleteFile_false in Hdel as ->. simpl.
      repeat split; intros; try discriminate; reflexivity. }
  assert (locked fs1 = locked fs /\ denied fs1 = denied fs
          /\ writeLimit fs1 = writeLimit fs) as (Hl1 & Hd1 & Hw1).
  { destruct (deleteFile_cases fs dest) as [[H _] | [[H _] | [H _]]];
      rewrite H in Hdel; try discriminate; injection Hdel as <-; auto. }
  pose proof (deleteFile_true _ _ _ Hdel) as Hex1.
  destruct (FileOutputStream_new_cases fs1 dest Hex1)
    as [-> | (-> & Hreach & Hnone & Hlocked)];
    cbn [failedToOpen out_opened negb].
  { simpl. repeat split; intros; try discriminate; auto. }
  rewrite writeFromInputStream_fresh.
  set (written := take (writeLimit fs1) (in_bytes (FileInputStream_new fs this))).
  set (fs3 := withNodes _ _).
  assert (getFullPathName this <> getFullPathName dest ->
          nodes fs3 !! getFullPathName this = nodes fs !! getFullPathName this)
    as Hsrc3.
  { intros Hne. unfold fs3. simpl. rewrite lookup_insert_ne by congruence.
    auto. }
  destruct (Z.of_nat (length written) =? getSize fs3 this) eqn:Hsize; simpl.
  - split; [discriminate|]. split; [|exact Hsrc3].
    intros _ bytes Hne Hreach0 Hbytes.
    unfold fileBytes in Hbytes.
    destruct (nodes fs !! getFullPathName this) as [[bytes0|]|] eqn:Hnode;
      try discriminate.
    injection Hbytes as ->.
    assert (in_bytes (FileInputStream_new fs this) = bytes) as Hin.
    { unfold FileInputStream_new, fileBytes. rewrite Hreach0, Hnode.
      reflexivity. }
    destruct (stat_regular fs3 (getFullPathName this) bytes) as (m & Hstat & Hm).
    { unfold reachable in *. simpl. rewrite Hd1. exact Hreach0. }
    { rewrite Hsrc3 by exact Hne. reflexivity. }
    apply Z.eqb_eq in Hsize. unfold getSize in Hsize.
    rewrite Hstat, Hm in Hsize. apply Nat2Z.inj in Hsize.
    unfold written in Hsize. rewrite Hin in Hsize.
    apply take_all_of_length in Hsize.
    unfold fileBytes, fs3. simpl. rewrite lookup_insert_eq.
    unfold written. rewrite Hin, Hsize. reflexivity.
  - split; [|split; [discriminate|]].
    + intros _ _.
      destruct (deleteFile_cases fs3 dest)
        as [[-> Hex] | [[_ [Hin | (entries & Hdir)]] | [-> _]]]; simpl.
      * exact Hex.
      * exfalso. unfold fs3 in Hin. simpl in Hin. rewrite Hl1 in *. auto.
      * exfalso. unfold fs3 in Hdir. simpl in Hdir.
        rewrite lookup_insert_eq in Hdir. discriminate.
      * apply exists_without, lookup_delete_eq.
    + intros Hne. rewrite deleteFile_other by exact Hne. auto.
Qed.

(** C2, as amended.  A call of [copyInternal] that returns false after its
    first [deleteFile] succeeded leaves nothing at the destination,
    whatever the source and the destination are: when the destination
    cannot be opened nothing was created, and when the number of bytes
    written differs from the size of the source the file just written is
    deleted again.  For a source that is a readable regular file and a
    destination at another path, there are two outcomes once the first
    [deleteFile] has succeeded: the call returns true and the destination
    holds every byte of the source, or it returns false and nothing exists
    at the destination; the source is left as it was. *)
Theorem copyInternal_atomic fs this dest :
  (fst (deleteFile fs dest) = true ->
   fst (copyInternal fs this dest) = false ->
   exists_ (snd (copyInternal fs this dest)) dest = false)
  /\ (forall bytes,
         getFullPathName this <> getFullPathName dest ->
         reachable fs (getFullPathName this) = true ->
         fileBytes fs (getFullPathName this) = Some bytes ->
         fst (deleteFile fs dest) = true ->
         (fst (copyInternal fs this dest) = true
          /\ fileBytes (snd (copyInternal fs this dest)) (getFullPathName dest)
             = Some bytes
          \/ fst (copyInternal fs this dest) = false
             /\ exists_ (snd (copyInternal fs this dest)) dest = false)
         /\ nodes (snd (copyInternal fs this dest)) !! getFullPathName this
            = nodes fs !! getFullPathName this).
Proof.
  destruct (copyInternal_outcomes fs this dest) as (Hfail & Hcopy & Hsrc).
  split; [exact Hfail|].
  intros bytes Hne Hreach Hbytes Hdel. split; [|exact (Hsrc Hne)].
  destruct (fst (copyInternal fs this dest)) eqn:Hresult.
  - left. split; [reflexivity|]. apply Hcopy; auto.
  - right. split; [reflexivity|]. apply Hfail; auto.
Qed.

(** C2, the claim as stated fails.  On a device that accepts two more
    bytes, copying the three bytes of [/tmp/x/a.txt] onto the same path
    returns true and leaves two of them: the size compared with is read
    after the file was deleted and written again.  Copying a source that
    does not exist returns true and leaves an empty destination. *)
Lemma copyInternal_not_atomic :
  fst (copyInternal Samples.fullDisk (mkFile "/tmp/x/a.txt")
         (mkFile "/tmp/x/a.txt")) = true
  /\ fileBytes Samples.fullDisk "/tmp/x/a.txt"
     = Some [Byte.x61; Byte.x62; Byte.x63]
  /\ fileBytes
       (snd (copyInternal Samples.fullDisk (mkFile "/tmp/x/a.txt")
               (mkFile "/tmp/x/a.txt")))
       "/tmp/x/a.txt" = Some [Byte.x61; Byte.x62]
  /\ exists_ Samples.tmpx (mkFile "/tmp/x/none") = false
  /\ fst (copyInternal Samples.tmpx (mkFile "/tmp/x/none")
            (mkFile "/tmp/x/B.TXT")) = true
  /\ fileBytes
       (snd (copyInternal Samples.tmpx (mkFile "/tmp/x/none")
               (mkFile "/tmp/x/B.TXT")))
       "/tmp/x/B.TXT" = Some [].
Proof. vm_compute. repeat split; reflexivity. Qed.

Lemma in_bytes_absent fs f :
  access_F_OK fs (getFullPathName f) = false ->
  in_bytes (FileInputStream_new fs f) = [].
Proof.
  unfold access_F_OK, FileInputStream_new, fileBytes.
  destruct (reachable fs (getFullPathName f)); simpl; [|reflexivity].
  destruct (nodes fs !! getFullPathName f) as [node|]; [|reflexivity].
  rewrite (bool_decide_eq_true_2 (is_Some (Some node))) by eauto.
  discriminate.
Qed.

Lemma reachable_true fs path :
  reachable fs path = true <-> path <> EmptyString /\ path ∉ denied fs.
Proof.
  unfold reachable. rewrite andb_true_iff, !negb_true_iff.
  rewrite !bool_decide_eq_false. reflexivity.
Qed.

(** A path at which [stat] cannot find bytes has size 0. *)
Lemma getSize_zero fs this (m : gmap string Node) :
  (reachable fs (getFullPathName this) = true ->
   m !! getFullPathName this = None
   \/ m !! getFullPathName this = Some (RegularFile [])) ->
  getSize (withNodes fs m) this = 0.
Proof.
  intros Hm. unfold getSize, stat. simpl.
  case_bool_decide as Hden; [reflexivity|].
  case_bool_decide as Hne; [reflexivity|].
  destruct Hm as [-> | ->]; try reflexivity.
  apply reachable_true. auto.
Qed.

(** C10.  When nothing is found at the path of the source, its size is
    reported as 0; if the destination can be deleted and opened, the copy
    returns true and leaves an empty file at the destination. *)
Theorem copyInternal_missing_source fs this dest :
  access_F_OK fs (getFullPathName this) = false ->
  fst (deleteFile fs dest) = true ->
  failedToOpen (fst (FileOutputStream_new (snd (deleteFile fs dest)) dest)) = false ->
  getSize fs this = 0
  /\ fst (copyInternal fs this dest) = true
  /\ fileBytes (snd (copyInternal fs this dest)) (getFullPathName dest) = Some [].
Proof.
  intros Habsent Hdeleted Hopened.
  assert (reachable fs (getFullPathName this) = true ->
          nodes fs !! getFullPathName this = None) as Hnone.
  { intros Hreach. unfold access_F_OK in Habsent. rewrite Hreach in Habsent.
    simpl in Habsent. apply bool_decide_eq_false in Habsent.
    destruct (nodes fs !! getFullPathName this); [|reflexivity].
    exfalso. eauto. }
  split.
  { replace fs with (withNodes fs (nodes fs)) by (destruct fs; reflexivity).
    apply getSize_zero. simpl. auto. }
  unfold copyInternal.
  pose proof (deleteFile_other fs dest (getFullPathName this)) as Hsrc1.
  destruct (deleteFile fs dest) as [deleted fs1] eqn:Hdel.
  simpl in Hdeleted, Hopened, Hsrc1. subst deleted.
  assert (exists m, fs1 = withNodes fs m) as [m1 ->].
  { destruct (deleteFile_cases fs dest) as [[H _] | [[H _] | [H _]]];
      rewrite H in Hdel; try discriminate; injection Hdel as <-.
    - exists (nodes fs). destruct fs; reflexivity.
    - eauto. }
  pose proof (deleteFile_true _ _ _ Hdel) as Hex1.
  destruct (FileOutputStream_new_cases _ dest Hex1)
    as [Hopen | (Hopen & Hreach & Hnone1 & Hlocked)];
    rewrite Hopen in *; cbn [failedToOpen out_opened negb fst] in *;
    [discriminate|].
  rewrite writeFromInputStream_fresh.
  rewrite (in_bytes_absent fs this Habsent). rewrite take_nil.
  cbn [length Z.of_nat].
  change (withNodes (withNodes fs m1) ?m) with (withNodes fs m).
  rewrite getSize_zero.
  - simpl. split; [reflexivity|].
    unfold fileBytes. simpl. rewrite lookup_insert_eq. reflexivity.
  - intros Hreach0. simpl in Hsrc1. simpl.
    destruct (decide (getFullPathName dest = getFullPathName this)) as [->|Hne].
    + right. apply lookup_insert_eq.
    + left. rewrite lookup_insert_ne by exact Hne.
      rewrite Hsrc1 by congruence. auto.
Qed.

(** When the destination cannot be deleted, nothing is touched. *)
Lemma copyInternal_undeletable fs this dest :
  fst (deleteFile fs dest) = false ->
  copyInternal fs this dest = (false, fs).
Proof.
  unfold copyInternal. destruct (deleteFile fs dest) as [deleted fs1] eqn:Hdel.
  simpl. intros ->. apply deleteFile_false in Hdel as ->. reflexivity.
Qed.

Lemma copyInternal_atomic_witness :
  exists_ (snd (copyInternal Samples.fullDisk (mkFile "/tmp/x/a.txt")
                  (mkFile "/tmp/x/B.TXT")))
    (mkFile "/tmp/x/B.TXT") = false
  /\ ((fst (copyInternal Samples.tmpx (mkFile "/tmp/x/a.txt")
              (mkFile "/tmp/x/B.TXT")) = true
       /\ fileBytes (snd (copyInternal Samples.tmpx (mkFile "/tmp/x/a.txt")
                            (mkFile "/tmp/x/B.TXT")))
            "/tmp/x/B.TXT" = Some Samples.abc
       \/ fst (copyInternal Samples.tmpx (mkFile "/tmp/x/a.txt")
                 (mkFile "/tmp/x/B.TXT")) = false
          /\ exists_ (snd (copyInternal Samples.tmpx (mkFile "/tmp/x/a.txt")
                             (mkFile "/tmp/x/B.TXT")))
               (mkFile "/tmp/x/B.TXT") = false)
      /\ nodes (snd (copyInternal Samples.tmpx (mkFile "/tmp/x/a.txt")
                       (mkFile "/tmp/x/B.TXT"))) !! "/tmp/x/a.txt"
         = nodes Samples.tmpx !! "/tmp/x/a.txt").
Proof.
  split.
  - apply (proj1 (copyInternal_atomic Samples.fullDisk (mkFile "/tmp/x/a.txt")
                    (mkFile "/tmp/x/B.TXT"))); vm_compute; reflexivity.
  - apply (proj2 (copyInternal_atomic Samples.tmpx (mkFile "/tmp/x/a.txt")
                    (mkFile "/tmp/x/B.TXT")) Samples.abc).
    + simpl. discriminate.
    + vm_compute. reflexivity.
    + vm_compute. reflexivity.
    + vm_compute. reflexivity.
Defined.

Lemma copyInternal_missing_source_witness :
  getSize Samples.tmpx (mkFile "/tmp/x/none") = 0
  /\ fst (copyInternal Samples.tmpx (mkFile "/tmp/x/none") (mkFile "/tmp/x/B.TXT"))
     = true
  /\ fileBytes (snd (copyInternal Samples.tmpx (mkFile "/tmp/x/none")
                       (mkFile "/tmp/x/B.TXT")))
       "/tmp/x/B.TXT" = Some [].
Proof.
  apply (copyInternal_missing_source Samples.tmpx (mkFile "/tmp/x/none")
           (mkFile "/tmp/x/B.TXT")); vm_compute; reflexivity.
Defined.

(** C9.  [moveToTrash] returns true for a file that does not exist, and
    false for every file that exists: this platform has no trash to move
    it to.  The file system is not touched. *)
Theorem moveToTrash_absent_is_success fs this :
  (exists_ fs this = false -> moveToTrash fs this = true)
  /\ (exists_ fs this = true -> moveToTrash fs this = false).
Proof.
  unfold moveToTrash. split; intros ->; reflexivity.
Qed.

Lemma moveToTrash_absent_is_success_witness :
  moveToTrash Samples.tmpx (mkFile "/tmp/x/none") = true
  /\ moveToTrash Samples.tmpx (mkFile "/tmp/x/a.txt") = false.
Proof.
  split.
  - apply (proj1 (moveToTrash_absent_is_success Samples.tmpx
                    (mkFile "/tmp/x/none"))).
    vm_compute. reflexivity.
  - apply (proj2 (moveToTrash_absent_is_success Samples.tmpx
                    (mkFile "/tmp/x/a.txt"))).
    vm_compute. reflexivity.
Defined.

(** ** Links *)

Lemma substring_whole (s : string) :
  String.substring 0 (String.length s) s = s.
Proof. induction s as [|c s IH]; simpl; [reflexivity|]. rewrite IH. reflexivity. Qed.

Lemma to_size_t_small z : 0 <= z <= 8192 -> to_size_t z = z.
Proof.
  intros Hz. unfold to_size_t, size_t_bits. apply Z.mod_small. lia.
Qed.

Section LinkProofs.

Variable getSiblingFile : File -> string -> File.

(** C6, as amended.  [getLinkedTarget] reads the link at the path of the
    file once and goes no further: for a link it returns the sibling
    named by the text of the link, whether or not that sibling is a link
    again; its result depends on nothing but what [readlink] says about
    this one path.  For a path that is not a link it does not fail: it
    returns the file itself. *)
Theorem getLinkedTarget_one_level fs this :
  (fst (readlink fs (getFullPathName this) 8192) = -1 ->
   getLinkedTarget getSiblingFile fs this = this)
  /\ (forall target,
         reachable fs (getFullPathName this) = true ->
         links fs !! getFullPathName this = Some target ->
         0 < Z.of_nat (String.length target) <= 8192 ->
         getLinkedTarget getSiblingFile fs this
         = getSiblingFile (mkFile (getFullPathName this)) target)
  /\ (forall fs2,
         readlink fs2 (getFullPathName this) 8192
         = readlink fs (getFullPathName this) 8192 ->
         getLinkedTarget getSiblingFile fs2 this
         = getLinkedTarget getSiblingFile fs this).
Proof.
  unfold getLinkedTarget, juce_readlink. split; [|split].
  - destruct (readlink fs (getFullPathName this) 8192) as [result buffer].
    simpl. intros ->. reflexivity.
  - intros target Hreach Hlink Hlen. unfold readlink.
    rewrite Hreach, Hlink.
    rewrite Z.min_l by lia.
    rewrite (to_size_t_small (Z.of_nat (String.length target))) by lia.
    rewrite (to_size_t_small 8192) by lia.
    replace (0 <? Z.of_nat (String.length target)) with true
      by (symmetry; apply Z.ltb_lt; lia).
    replace (Z.of_nat (String.length target) <=? 8192) with true
      by (symmetry; apply Z.leb_le; lia).
    simpl. unfold fromUTF8. rewrite Nat2Z.id, !substring_whole.
    reflexivity.
  - intros fs2 ->. reflexivity.
Qed.

End LinkProofs.

(** C6, the claim as stated fails: [/d/file] is a regular file, not a
    link, and resolving it does not fail: it returns [/d/file], the very
    value that resolving the link [/d/second] returns. *)
Lemma resolving_a_non_link_returns_the_file :
  fst (readlink Samples.linked "/d/file" 8192) = -1
  /\ getLinkedTarget replaceLastSegment Samples.linked (mkFile "/d/file")
     = mkFile "/d/file"
  /\ getLinkedTarget replaceLastSegment Samples.linked (mkFile "/d/second")
     = mkFile "/d/file".
Proof. vm_compute. repeat split; reflexivity. Qed.

(** Two links that point at each other resolve to each other, and a link to
    a link resolves to the second link, not to what that one points at. *)
Example links_are_followed_once :
  getLinkedTarget replaceLastSegment Samples.linked (mkFile "/d/a") = mkFile "/d/b"
  /\ getLinkedTarget replaceLastSegment Samples.linked (mkFile "/d/b") = mkFile "/d/a"
  /\ getLinkedTarget replaceLastSegment Samples.linked (mkFile "/d/first")
     = mkFile "/d/second".
Proof. vm_compute. repeat split; reflexivity. Qed.

Lemma getLinkedTarget_one_level_witness :
  getLinkedTarget replaceLastSegment Samples.linked (mkFile "/d/first")
  = replaceLastSegment (mkFile "/d/first") "second"
  /\ getLinkedTarget replaceLastSegment Samples.linked (mkFile "/d/file")
     = mkFile "/d/file".
Proof.
  split.
  - apply (proj1 (proj2 (getLinkedTarget_one_level replaceLastSegment
                           Samples.linked (mkFile "/d/first")))).
    + vm_compute. reflexivity.
    + vm_compute. reflexivity.
    + simpl. lia.
  - apply (proj1 (getLinkedTarget_one_level replaceLastSegment
                    Samples.linked (mkFile "/d/file"))).
    vm_compute. reflexivity.
Defined.

(** ** Special locations *)

(** Every enumerator is mapped: none of them reaches the assertion. *)
Lemma getSpecialLocation_mapped env type :
  (forall n, type <> unknownLocation n) ->
  assertionHit (getSpecialLocation env type) = false.
Proof.
  destruct type as [| | | | | | | | | | | | |n]; intros H; try reflexivity.
  destruct (H n); reflexivity.
Qed.

(** C7, as amended.  For a value that is none of the enumerators,
    [getSpecialLocation] reaches [jassertfalse], an assertion failure in a
    debug build and nothing in a release build, and then returns
    [File::nonexistent], the empty path, in both builds. *)
Theorem getSpecialLocation_unmapped env n :
  getSpecialLocation env (unknownLocation n)
  = mkReturned (JUCE_DEBUG env) nonexistent
  /\ getFullPathName (value (getSpecialLocation env (unknownLocation n)))
     = EmptyString.
Proof. split; reflexivity. Qed.

(** C7, the claim as stated fails: in a release build the value 99 makes
    [getSpecialLocation] return the empty path with no assertion hit. *)
Lemma getSpecialLocation_returns_empty_path :
  getSpecialLocation Samples.releaseBuild (unknownLocation 99)
  = mkReturned false (mkFile "")
  /\ getFullPathName
       (value (getSpecialLocation Samples.releaseBuild (unknownLocation 99)))
     = EmptyString.
Proof. split; reflexivity. Qed.

(** The mapped locations of this platform. *)
Example special_locations :
  value (getSpecialLocation Samples.releaseBuild userHomeDirectory)
  = mkFile "/data/data/app"
  /\ value (getSpecialLocation Samples.releaseBuild tempDirectory)
     = mkFile "~/.temp"
  /\ value (getSpecialLocation Samples.debugBuild hostApplicationPath)
     = mkFile "/data/app/app.apk".
Proof. repeat split; reflexivity. Qed.

(** * Further properties *)

(** ** The directory iterator, call by call *)

Section IteratorCalls.

Variable fnmatch : string -> string -> Z -> Z.

Lemma nextLoop_skips fs p a name rest : forall skipped,
  (forall s, In s skipped -> matches fnmatch p s = false) ->
  matches fnmatch p name = true ->
  exists a',
    nextLoop fnmatch fs p (skipped ++ name :: rest) a = (true, rest, a')
    /\ filenameFound a' = name.
Proof.
  induction skipped as [|s skipped IH]; intros Hskip Hname; simpl.
  - rewrite Hname. eexists. split; [reflexivity|]. simpl.
    apply filenameFound_updateStatInfoForFile.
  - rewrite (Hskip s) by (left; reflexivity).
    apply IH; [|exact Hname]. intros s' Hs'. apply Hskip. right. exact Hs'.
Qed.

Lemma filter_nil_iff {A} (f : A -> bool) (l : list A) :
  List.filter f l = [] <-> (forall x, In x l -> f x = false).
Proof.
  induction l as [|y l IH]; simpl.
  - split; [intros _ x []|reflexivity].
  - destruct (f y) eqn:Hy.
    + split; [discriminate|]. intros H. rewrite (H y) in Hy by auto.
      discriminate.
    + rewrite IH. split.
      * intros H x [<-|Hx]; auto.
      * intros H x Hx. apply H. auto.
Qed.

(** X1.  [next] takes the first entry of the stream that the wildcard
    accepts: the entries before it are read and dropped, the call returns
    true with its name, and the stream is left just behind it. *)
Theorem next_takes_first_match fs p a skipped name rest :
  dir p = Some (skipped ++ name :: rest) ->
  (forall s, In s skipped -> matches fnmatch p s = false) ->
  matches fnmatch p name = true ->
  exists a',
    next fnmatch fs p a = (true, setDir p rest, a')
    /\ filenameFound a' = name.
Proof.
  intros Hdir Hskip Hname. unfold next. rewrite Hdir.
  destruct (nextLoop_skips fs p a name rest skipped Hskip Hname)
    as (a' & -> & Hfound).
  exists a'. split; [reflexivity|exact Hfound].
Qed.

(** X2.  [next] returns false exactly when the stream is null or none of
    its remaining entries is accepted by the wildcard; such a call writes
    none of the caller's variables, and it leaves a stream that is not null
    at its end. *)
Theorem next_false_iff_no_match fs p a :
  (fst (fst (next fnmatch fs p a)) = false
   <-> (forall stream name,
           dir p = Some stream -> In name stream ->
           matches fnmatch p name = false))
  /\ (fst (fst (next fnmatch fs p a)) = false ->
      snd (next fnmatch fs p a) = a
      /\ dir (snd (fst (next fnmatch fs p a)))
         = match dir p with Some _ => Some [] | None => None end).
Proof.
  unfold next. destruct (dir p) as [stream|] eqn:Hdir.
  - destruct (nextLoop fnmatch fs p stream a) as [[found rest] a'] eqn:Hloop.
    destruct found; simpl.
    + split; [|discriminate]. split; [discriminate|]. intros Hnone.
      apply nextLoop_found in Hloop as (skipped & -> & _ & Hm & _).
      rewrite (Hnone _ (filenameFound a') eq_refl) in Hm; [discriminate|].
      apply in_or_app. right. left. reflexivity.
    + apply nextLoop_not_found in Hloop as (-> & -> & Hfilter).
      split; [|auto]. split; [|reflexivity].
      intros _ stream' name Heq Hin. injection Heq as <-.
      revert name Hin. apply filter_nil_iff. exact Hfilter.
  - simpl. split; [|auto]. split; [|reflexivity]. intros _ stream name Heq.
    discriminate.
Qed.

(** X3.  The results of [n] calls in a row on an open stream are one true
    for each remaining entry the wildcard accepts, as far as [n] reaches,
    and false from then on. *)
Theorem nextResults_trues_then_falses fs : forall n p a stream,
  dir p = Some stream ->
  nextResults fnmatch n fs p a
  = repeat true (Nat.min n (length (List.filter (matches fnmatch p) stream)))
    ++ repeat false (n - length (List.filter (matches fnmatch p) stream)).
Proof.
  induction n as [|n IH]; intros p a stream Hdir; [reflexivity|].
  simpl nextResults. unfold next. rewrite Hdir.
  destruct (nextLoop fnmatch fs p stream a) as [[found rest] a'] eqn:Hloop.
  destruct found.
  - apply nextLoop_found in Hloop as (skipped & -> & Hs & Hm & _).
    rewrite List.filter_app, Hs. simpl List.filter. rewrite Hm.
    rewrite (IH (setDir p rest) a' rest eq_refl). reflexivity.
  - apply nextLoop_not_found in Hloop as (-> & -> & ->).
    rewrite (IH (setDir p []) a [] eq_refl). simpl.
    rewrite Nat.min_0_r, Nat.sub_0_r. reflexivity.
Qed.

Lemma walk_fuel fs : forall fuel1 fuel2 p a stream,
  dir p = Some stream ->
  (length stream < fuel1)%nat ->
  (length stream < fuel2)%nat ->
  walk fnmatch fuel1 fs p a = walk fnmatch fuel2 fs p a.
Proof.
  induction fuel1 as [|fuel1 IH]; intros fuel2 p a stream Hdir H1 H2; [lia|].
  destruct fuel2 as [|fuel2]; [lia|].
  simpl. unfold next. rewrite Hdir.
  destruct (nextLoop fnmatch fs p stream a) as [[found rest] a'] eqn:Hloop.
  destruct found; [|reflexivity]. f_equal.
  apply nextLoop_found in Hloop as (skipped & -> & _).
  rewrite length_app in H1, H2. simpl in H1, H2.
  apply (IH fuel2 (setDir p rest) a' rest); [reflexivity|lia|lia].
Qed.

(** X4.  A caller's loop over an open stream is over after at most one call
    more than the stream has entries: running it longer yields the same
    entries, and it yields no more entries than the stream holds. *)
Theorem walk_needs_no_more_fuel fs fuel p a stream :
  dir p = Some stream ->
  (length stream < fuel)%nat ->
  walk fnmatch fuel fs p a = walk fnmatch (S (length stream)) fs p a
  /\ (length (walk fnmatch fuel fs p a) <= length stream)%nat.
Proof.
  intros Hdir Hfuel. split.
  - apply (walk_fuel fs fuel (S (length stream)) p a stream); auto.
  - rewrite <- (length_map filenameFound).
    rewrite (walk_names fnmatch fs fuel p a stream Hdir Hfuel).
    apply List.filter_length_le.
Qed.

Lemma next_keeps_members fs p a :
  parentDir (snd (fst (next fnmatch fs p a))) = parentDir p
  /\ wildCard (snd (fst (next fnmatch fs p a))) = wildCard p
  /\ wildcardUTF8 (snd (fst (next fnmatch fs p a))) = wildcardUTF8 p
  /\ (dir p = None -> dir (snd (fst (next fnmatch fs p a))) = None)
  /\ (forall stream,
         dir p = Some stream ->
         exists read rest,
           stream = read ++ rest
           /\ dir (snd (fst (next fnmatch fs p a))) = Some rest).
Proof.
  unfold next. destruct (dir p) as [stream|] eqn:Hdir.
  - destruct (nextLoop fnmatch fs p stream a) as [[found rest] a'] eqn:Hloop.
    simpl. repeat split; try discriminate.
    intros stream' Heq. injection Heq as <-.
    destruct found.
    + apply nextLoop_found in Hloop as (skipped & -> & _).
      exists (skipped ++ [filenameFound a']), rest.
      rewrite <- app_assoc. auto.
    + apply nextLoop_not_found in Hloop as (-> & _).
      exists stream, []. rewrite app_nil_r. auto.
  - simpl. repeat split; auto. intros stream Heq. discriminate.
Qed.

Lemma afterCalls_keeps_members : forall calls p,
  parentDir (afterCalls fnmatch calls p) = parentDir p
  /\ wildCard (afterCalls fnmatch calls p) = wildCard p
  /\ wildcardUTF8 (afterCalls fnmatch calls p) = wildcardUTF8 p
  /\ (dir p = None -> dir (afterCalls fnmatch calls p) = None)
  /\ (forall stream,
         dir p = Some stream ->
         exists read rest,
           stream = read ++ rest
           /\ dir (afterCalls fnmatch calls p) = Some rest).
Proof.
  induction calls as [|[fs a] calls IH]; intros p.
  - simpl. repeat split; auto. intros stream Hdir. exists [], stream. auto.
  - simpl.
    destruct (next_keeps_members fs p a) as (Hp & Hw & Hu & Hnull & Hopen).
    destruct (IH (snd (fst (next fnmatch fs p a))))
      as (Hp' & Hw' & Hu' & Hnull' & Hopen').
    repeat split; try congruence; auto.
    intros stream Hdir.
    destruct (Hopen stream Hdir) as (read1 & rest1 & -> & Hdir1).
    destruct (Hopen' rest1 Hdir1) as (read2 & rest2 & -> & Hdir2).
    exists (read1 ++ read2), rest2. rewrite <- app_assoc. auto.
Qed.

(** X5.  On a file system that stays as it was when the iterator opened
    its directory, whatever calls of [next] are made, the iterator keeps
    its directory and its wildcard, and its stream only moves forward: what
    is left of it is a tail of the entries of the directory. *)
Theorem stream_only_moves_forward fs directory wildCard_ entries callers :
  opendir fs (getFullPathName directory) = inl entries ->
  exists read rest,
    entries = read ++ rest
    /\ afterCalls fnmatch (List.map (fun a => (fs, a)) callers)
         (Pimpl_new fs directory wildCard_)
       = mkPimpl (addTrailingSeparator (getFullPathName directory))
                 wildCard_ wildCard_ (Some rest).
Proof.
  intros Hopen.
  destruct (afterCalls_keeps_members (List.map (fun a => (fs, a)) callers)
              (Pimpl_new fs directory wildCard_))
    as (Hp & Hw & Hu & _ & Hdir).
  destruct (Hdir entries) as (read & rest & -> & Hrest).
  { unfold Pimpl_new. rewrite Hopen. reflexivity. }
  exists read, rest. split; [reflexivity|].
  destruct (afterCalls fnmatch (List.map (fun a => (fs, a)) callers)
              (Pimpl_new fs directory wildCard_)).
  simpl in *. subst. reflexivity.
Qed.

(** X6.  The destructor calls [closedir] once when the constructor opened a
    stream and not at all when [opendir] had failed, however many calls of
    [next] came between. *)
Theorem destructor_closes_what_was_opened fs directory wildCard_ calls :
  length (Pimpl_delete
            (afterCalls fnmatch calls (Pimpl_new fs directory wildCard_)))
  = match opendir fs (getFullPathName directory) with
    | inl _ => 1%nat
    | inr _ => 0%nat
    end.
Proof.
  destruct (afterCalls_keeps_members calls (Pimpl_new fs directory wildCard_))
    as (_ & _ & _ & Hnull & Hdir).
  unfold Pimpl_delete, Pimpl_new in *. simpl in *.
  destruct (opendir fs (getFullPathName directory)) as [entries|err].
  - destruct (Hdir entries eq_refl) as (read & rest & _ & ->). reflexivity.
  - rewrite Hnull by reflexivity. reflexivity.
Qed.

End IteratorCalls.

Lemma next_takes_first_match_witness :
  exists a',
    next fnmatch_glob Samples.tmpx
      (Pimpl_new Samples.tmpx (mkFile "/tmp/x") "*.txt") Samples.allOutputs
    = (true,
       setDir (Pimpl_new Samples.tmpx (mkFile "/tmp/x") "*.txt")
              ["B.TXT"; ".hidden"],
       a')
    /\ filenameFound a' = "a.txt".
Proof.
  apply (next_takes_first_match fnmatch_glob Samples.tmpx
           (Pimpl_new Samples.tmpx (mkFile "/tmp/x") "*.txt")
           Samples.allOutputs ["."; ".."] "a.txt" ["B.TXT"; ".hidden"]).
  - vm_compute. reflexivity.
  - intros s [<-|[<-|[]]]; vm_compute; reflexivity.
  - vm_compute. reflexivity.
Defined.

Lemma next_false_iff_no_match_witness :
  fst (fst (next fnmatch_glob Samples.tmpx
              (Pimpl_new Samples.tmpx (mkFile "/tmp/x") "*.pdf")
              Samples.allOutputs)) = false
  /\ snd (next fnmatch_glob Samples.tmpx
            (Pimpl_new Samples.tmpx (mkFile "/tmp/x") "*.pdf")
            Samples.allOutputs) = Samples.allOutputs.
Proof.
  destruct (next_false_iff_no_match fnmatch_glob Samples.tmpx
              (Pimpl_new Samples.tmpx (mkFile "/tmp/x") "*.pdf")
              Samples.allOutputs) as [[_ Hfalse] Hkeeps].
  assert (fst (fst (next fnmatch_glob Samples.tmpx
                      (Pimpl_new Samples.tmpx (mkFile "/tmp/x") "*.pdf")
                      Samples.allOutputs)) = false) as H.
  { apply Hfalse. intros stream name Hdir. vm_compute in Hdir.
    injection Hdir as <-.
    intros [<-|[<-|[<-|[<-|[<-|[]]]]]]; vm_compute; reflexivity. }
  split; [exact H|]. apply (Hkeeps H).
Defined.

Lemma nextResults_trues_then_falses_witness :
  nextResults fnmatch_glob 4 Samples.tmpx
    (Pimpl_new Samples.tmpx (mkFile "/tmp/x") "*.txt") Samples.allOutputs
  = repeat true
      (Nat.min 4
         (length
            (List.filter
               (matches fnmatch_glob
                  (Pimpl_new Samples.tmpx (mkFile "/tmp/x") "*.txt"))
               ["."; ".."; "a.txt"; "B.TXT"; ".hidden"])))
    ++ repeat false
         (4 - length
                (List.filter
                   (matches fnmatch_glob
                      (Pimpl_new Samples.tmpx (mkFile "/tmp/x") "*.txt"))
                   ["."; ".."; "a.txt"; "B.TXT"; ".hidden"])).
Proof.
  apply nextResults_trues_then_falses. vm_compute. reflexivity.
Defined.

Lemma walk_needs_no_more_fuel_witness :
  walk fnmatch_glob 50 Samples.tmpx
    (Pimpl_new Samples.tmpx (mkFile "/tmp/x") "*") Samples.allOutputs
  = walk fnmatch_glob 6 Samples.tmpx
      (Pimpl_new Samples.tmpx (mkFile "/tmp/x") "*") Samples.allOutputs
  /\ (length (walk fnmatch_glob 50 Samples.tmpx
                (Pimpl_new Samples.tmpx (mkFile "/tmp/x") "*")
                Samples.allOutputs) <= 5)%nat.
Proof.
  apply (walk_needs_no_more_fuel fnmatch_glob Samples.tmpx 50
           (Pimpl_new Samples.tmpx (mkFile "/tmp/x") "*") Samples.allOutputs
           ["."; ".."; "a.txt"; "B.TXT"; ".hidden"]).
  - vm_compute. reflexivity.
  - simpl. lia.
Defined.

Lemma stream_only_moves_forward_witness :
  exists read rest,
    ["."; ".."; "a.txt"; "B.TXT"; ".hidden"] = read ++ rest
    /\ afterCalls fnmatch_glob
         (List.map (fun a => (Samples.tmpx, a))
            [Samples.allOutputs; Samples.nameOnly])
         (Pimpl_new Samples.tmpx (mkFile "/tmp/x") "*.txt")
       = mkPimpl (addTrailingSeparator "/tmp/x") "*.txt" "*.txt" (Some rest).
Proof.
  apply (stream_only_moves_forward fnmatch_glob Samples.tmpx (mkFile "/tmp/x")).
  vm_compute. reflexivity.
Defined.

(** ** Copying, outcome by outcome *)

Lemma withNodes_same fs : withNodes fs (nodes fs) = fs.
Proof. destruct fs. reflexivity. Qed.

Lemma exists_reachable fs f :
  reachable fs (getFullPathName f) = true ->
  exists_ fs f = bool_decide (is_Some (nodes fs !! getFullPathName f)).
Proof.
  intros Hreach. unfold exists_, access_F_OK. rewrite Hreach.
  apply reachable_true in Hreach as [Hne _].
  rewrite (bool_decide_eq_false_2 _ Hne). reflexivity.
Qed.

Lemma FileOutputStream_new_creates fs f :
  reachable fs (getFullPathName f) = true ->
  nodes fs !! getFullPathName f = None ->
  getFullPathName f ∉ locked fs ->
  FileOutputStream_new fs f
  = (mkFileOutputStream (getFullPathName f) true,
     withNodes fs (<[getFullPathName f := RegularFile []]> (nodes fs))).
Proof.
  intros Hreach Hnone Hlocked. unfold FileOutputStream_new.
  rewrite Hreach, Hnone. simpl.
  rewrite (bool_decide_eq_false_2 _ Hlocked). reflexivity.
Qed.

(** After a [deleteFile] that succeeded on a path that can be reached, the
    file system is the old one without that path. *)
Lemma deleteFile_succeeded fs f :
  reachable fs (getFullPathName f) = true ->
  fst (deleteFile fs f) = true ->
  snd (deleteFile fs f)
  = withNodes fs (delete (getFullPathName f) (nodes fs)).
Proof.
  intros Hreach Hdel.
  destruct (deleteFile_cases fs f) as [[H Hex] | [[H _] | [H _]]];
    rewrite H in *; simpl in *; try discriminate; [|reflexivity].
  rewrite (exists_reachable fs f Hreach) in Hex.
  apply bool_decide_eq_false in Hex.
  rewrite delete_id, withNodes_same; [reflexivity|].
  destruct (nodes fs !! getFullPathName f); [|reflexivity].
  exfalso. eauto.
Qed.

Lemma getSize_regular fs this (m : gmap string Node) bytes :
  reachable fs (getFullPathName this) = true ->
  m !! getFullPathName this = Some (RegularFile bytes) ->
  getSize (withNodes fs m) this = Z.of_nat (length bytes).
Proof.
  intros Hreach Hm.
  destruct (stat_regular (withNodes fs m) (getFullPathName this) bytes)
    as (md & Hstat & Hsize); [exact Hreach|exact Hm|].
  unfold getSize. rewrite Hstat. exact Hsize.
Qed.

Lemma in_bytes_regular fs this bytes :
  reachable fs (getFullPathName this) = true ->
  fileBytes fs (getFullPathName this) = Some bytes ->
  in_bytes (FileInputStream_new fs this) = bytes.
Proof.
  intros Hreach Hbytes. unfold FileInputStream_new.
  rewrite Hreach, Hbytes. reflexivity.
Qed.

Lemma fileBytes_node fs path bytes :
  fileBytes fs path = Some bytes -> nodes fs !! path = Some (RegularFile bytes).
Proof.
  unfold fileBytes.
  destruct (nodes fs !! path) as [[bytes0|]|]; try discriminate.
  intros H. injection H as ->. reflexivity.
Qed.

(** The copy up to the comparison of the two sizes, for a source that is a
    readable regular file and a destination that is another path. *)
Lemma copyInternal_compared fs this dest bytes :
  getFullPathName this <> getFullPathName dest ->
  reachable fs (getFullPathName this) = true ->
  fileBytes fs (getFullPathName this) = Some bytes ->
  reachable fs (getFullPathName dest) = true ->
  getFullPathName dest ∉ locked fs ->
  fst (deleteFile fs dest) = true ->
  copyInternal fs this dest
  = if (length bytes <=? writeLimit fs)%nat
    then (true,
          withNodes fs (<[getFullPathName dest := RegularFile bytes]> (nodes fs)))
    else (false,
          withNodes fs (delete (getFullPathName dest) (nodes fs))).
Proof.
  intros Hne Hsrc Hbytes Hdest Hlocked Hdel.
  pose proof (deleteFile_succeeded fs dest Hdest Hdel) as Hfs1.
  unfold copyInternal.
  destruct (deleteFile fs dest) as [deleted fs1]. simpl in Hdel, Hfs1.
  subst deleted fs1.
  rewrite FileOutputStream_new_creates;
    [|exact Hdest|apply lookup_delete_eq|exact Hlocked].
  cbn [failedToOpen out_opened negb].
  rewrite writeFromInputStream_fresh.
  rewrite (in_bytes_regular fs this bytes Hsrc Hbytes).
  cbn [nodes withNodes writeLimit].
  change (withNodes (withNodes fs ?m1) ?m) with (withNodes fs m).
  rewrite insert_delete_eq.
  rewrite (getSize_regular fs this _ bytes Hsrc).
  2:{ rewrite lookup_insert_ne by congruence.
      apply fileBytes_node. exact Hbytes. }
  destruct (Nat.leb_spec (length bytes) (writeLimit fs)) as [Hle|Hgt].
  - rewrite take_ge by lia. rewrite Z.eqb_refl. reflexivity.
  - replace (Z.of_nat (length (take (writeLimit fs) bytes))
             =? Z.of_nat (length bytes)) with false.
    2:{ symmetry. apply Z.eqb_neq. rewrite length_take. lia. }
    f_equal.
    set (m := <[getFullPathName dest:=_]> (nodes fs)).
    rewrite (deleteFile_succeeded (withNodes fs m) dest).
    + simpl. unfold m. rewrite delete_insert_eq. reflexivity.
    + exact Hdest.
    + destruct (deleteFile_cases (withNodes fs m) dest)
        as [[H _] | [[H [Hin|(entries & Hdir)]] | [H _]]];
        rewrite H; simpl; try reflexivity.
      * exfalso. auto.
      * exfalso. simpl in Hdir. unfold m in Hdir.
        rewrite lookup_insert_eq in Hdir. discriminate.
Qed.

(** X7.  Copying a readable regular file to another path that can be
    reached, is not locked and can be cleared, on a device with room for
    all its bytes, returns true; afterwards the destination holds exactly
    the bytes of the source (an older destination is replaced, not added
    to) and nothing else has changed. *)
Theorem copyInternal_copies_when_room fs this dest bytes :
  getFullPathName this <> getFullPathName dest ->
  reachable fs (getFullPathName this) = true ->
  fileBytes fs (getFullPathName this) = Some bytes ->
  reachable fs (getFullPathName dest) = true ->
  getFullPathName dest ∉ locked fs ->
  fst (deleteFile fs dest) = true ->
  (length bytes <= writeLimit fs)%nat ->
  copyInternal fs this dest
  = (true,
     withNodes fs (<[getFullPathName dest := RegularFile bytes]> (nodes fs))).
Proof.
  intros Hne Hsrc Hbytes Hdest Hlocked Hdel Hroom.
  rewrite (copyInternal_compared fs this dest bytes) by assumption.
  apply Nat.leb_le in Hroom. rewrite Hroom. reflexivity.
Qed.

(** X8.  Take a source that is a readable regular file and a destination
    at another path, which can be reached, where files can be created and
    removed (it is not locked), and which the first [deleteFile] clears.
    When the device accepts fewer bytes than the source holds, the copy
    returns false and nothing exists at the destination afterwards: the
    bytes written so far are removed, and a destination that was there
    before the call is gone too.  The source is as it was. *)
Theorem copyInternal_fails_when_device_full fs this dest bytes :
  getFullPathName this <> getFullPathName dest ->
  reachable fs (getFullPathName this) = true ->
  fileBytes fs (getFullPathName this) = Some bytes ->
  reachable fs (getFullPathName dest) = true ->
  getFullPathName dest ∉ locked fs ->
  fst (deleteFile fs dest) = true ->
  (writeLimit fs < length bytes)%nat ->
  fst (copyInternal fs this dest) = false
  /\ exists_ (snd (copyInternal fs this dest)) dest = false
  /\ fileBytes (snd (copyInternal fs this dest)) (getFullPathName this)
     = Some bytes.
Proof.
  intros Hne Hsrc Hbytes Hdest Hlocked Hdel Hfull.
  rewrite (copyInternal_compared fs this dest bytes) by assumption.
  apply Nat.leb_gt in Hfull. rewrite Hfull. cbn [fst snd].
  split; [reflexivity|]. split.
  - apply exists_without, lookup_delete_eq.
  - unfold fileBytes. simpl. rewrite lookup_delete_ne by congruence.
    rewrite (fileBytes_node fs _ bytes Hbytes). reflexivity.
Qed.

(** X9.  A copy that succeeded can be repeated: the second call returns
    true again and leaves the file system as the first call left it. *)
Theorem copyInternal_twice fs this dest bytes :
  getFullPathName this <> getFullPathName dest ->
  reachable fs (getFullPathName this) = true ->
  fileBytes fs (getFullPathName this) = Some bytes ->
  reachable fs (getFullPathName dest) = true ->
  getFullPathName dest ∉ locked fs ->
  fst (deleteFile fs dest) = true ->
  (length bytes <= writeLimit fs)%nat ->
  copyInternal (snd (copyInternal fs this dest)) this dest
  = copyInternal fs this dest.
Proof.
  intros Hne Hsrc Hbytes Hdest Hlocked Hdel Hroom.
  rewrite (copyInternal_compared fs this dest bytes) by assumption.
  apply Nat.leb_le in Hroom. rewrite Hroom. cbn [snd].
  set (m := <[getFullPathName dest:=RegularFile bytes]> (nodes fs)).
  rewrite (copyInternal_compared (withNodes fs m) this dest bytes).
  - cbn [writeLimit withNodes nodes]. rewrite Hroom.
    change (withNodes (withNodes fs m) ?m') with (withNodes fs m').
    unfold m. rewrite insert_insert_eq. reflexivity.
  - exact Hne.
  - exact Hsrc.
  - unfold fileBytes, m. simpl. rewrite lookup_insert_ne by congruence.
    rewrite (fileBytes_node fs _ bytes Hbytes). reflexivity.
  - exact Hdest.
  - exact Hlocked.
  - destruct (deleteFile_cases (withNodes fs m) dest)
      as [[H _] | [[H [Hin|(entries & Hdir)]] | [H _]]];
      rewrite H; simpl; try reflexivity.
    + exfalso. auto.
    + exfalso. simpl in Hdir. unfold m in Hdir.
      rewrite lookup_insert_eq in Hdir. discriminate.
Qed.

Lemma sameExceptAt_refl path fs : sameExceptAt path fs fs.
Proof. exists (nodes fs). split; [symmetry; apply withNodes_same|auto]. Qed.

Lemma sameExceptAt_trans path fs1 fs2 fs3 :
  sameExceptAt path fs1 fs2 -> sameExceptAt path fs2 fs3 ->
  sameExceptAt path fs1 fs3.
Proof.
  intros (m2 & -> & H2) (m3 & -> & H3). exists m3. split; [reflexivity|].
  intros q Hq. rewrite (H3 q Hq). simpl. auto.
Qed.

Lemma sameExceptAt_delete fs path :
  sameExceptAt path fs (withNodes fs (delete path (nodes fs))).
Proof.
  eexists. split; [reflexivity|]. intros q Hq.
  apply lookup_delete_ne. congruence.
Qed.

Lemma sameExceptAt_insert fs path node :
  sameExceptAt path fs (withNodes fs (<[path := node]> (nodes fs))).
Proof.
  eexists. split; [reflexivity|]. intros q Hq.
  apply lookup_insert_ne. congruence.
Qed.

Lemma sameExceptAt_deleteFile fs f :
  sameExceptAt (getFullPathName f) fs (snd (deleteFile fs f)).
Proof.
  destruct (deleteFile_cases fs f) as [[-> _] | [[-> _] | [-> _]]]; simpl;
    auto using sameExceptAt_refl, sameExceptAt_delete.
Qed.

Lemma sameExceptAt_FileOutputStream_new fs f :
  sameExceptAt (getFullPathName f) fs (snd (FileOutputStream_new fs f))
  /\ out_path (fst (FileOutputStream_new fs f)) = getFullPathName f.
Proof.
  unfold FileOutputStream_new.
  destruct (reachable fs (getFullPathName f)); simpl;
    [|auto using sameExceptAt_refl].
  destruct (nodes fs !! getFullPathName f) as [[bytes|entries]|];
    repeat case_bool_decide; simpl;
    auto using sameExceptAt_refl, sameExceptAt_insert.
Qed.

Lemma sameExceptAt_writeFromInputStream fs out source numBytesToWrite :
  sameExceptAt (out_path out) fs
    (snd (writeFromInputStream fs out source numBytesToWrite)).
Proof.
  unfold writeFromInputStream. destruct (out_opened out); simpl;
    auto using sameExceptAt_refl, sameExceptAt_insert.
Qed.

(** The paths [copyInternal] deletes at, creates at and writes to are all
    the path of the destination. *)
Lemma copyInternal_sameExceptAt fs this dest :
  sameExceptAt (getFullPathName dest) fs (snd (copyInternal fs this dest)).
Proof.
  unfold copyInternal.
  pose proof (sameExceptAt_deleteFile fs dest) as H1.
  destruct (deleteFile fs dest) as [deleted fs1]. simpl in H1.
  destruct deleted; [|exact H1].
  destruct (sameExceptAt_FileOutputStream_new fs1 dest) as [H2 Hpath].
  destruct (FileOutputStream_new fs1 dest) as [out fs2]. simpl in H2, Hpath.
  pose proof (sameExceptAt_trans _ _ _ _ H1 H2) as H12.
  destruct (failedToOpen out); [exact H12|].
  pose proof (sameExceptAt_writeFromInputStream fs2 out
                (FileInputStream_new fs this) (-1)) as H3.
  rewrite Hpath in H3.
  destruct (writeFromInputStream fs2 out (FileInputStream_new fs this) (-1))
    as [numWritten fs3]. simpl in H3.
  pose proof (sameExceptAt_trans _ _ _ _ H12 H3) as H123.
  destruct (numWritten =? getSize fs3 this); [exact H123|].
  simpl. eapply sameExceptAt_trans; [exact H123|].
  apply sameExceptAt_deleteFile.
Qed.

(** X10.  Whatever its result, [copyInternal] leaves the bytes of every
    regular file at a path other than the destination as they were: no
    such file is created, removed, cut short or written to. *)
Theorem copyInternal_changes_only_destination fs this dest path :
  path <> getFullPathName dest ->
  fileBytes (snd (copyInternal fs this dest)) path = fileBytes fs path.
Proof.
  intros Hne.
  destruct (copyInternal_sameExceptAt fs this dest) as (m & -> & Hm).
  unfold fileBytes. simpl. rewrite (Hm path Hne). reflexivity.
Qed.

(** X11.  When the destination exists and cannot be deleted, because its
    path is locked or because it is a directory that is not empty, the
    copy returns false and the file system is as it was: the old
    destination is kept and nothing is written. *)
Theorem copyInternal_keeps_undeletable_destination fs this dest :
  exists_ fs dest = true ->
  (getFullPathName dest ∈ locked fs
   \/ exists entries,
        nodes fs !! getFullPathName dest = Some (Directory entries)
        /\ forallb isDotEntry entries = false) ->
  copyInternal fs this dest = (false, fs).
Proof.
  intros Hex Hwhy.
  assert (deleteFile fs dest = (false, fs)) as Hdel.
  { unfold deleteFile. rewrite Hex. simpl.
    case_bool_decide as Hlocked; [reflexivity|].
    destruct Hwhy as [Hin | (entries & -> & ->)]; [contradiction|].
    reflexivity. }
  unfold copyInternal. rewrite Hdel. reflexivity.
Qed.

Lemma copyInternal_copies_when_room_witness :
  copyInternal Samples.tmpx (mkFile "/tmp/x/a.txt") (mkFile "/tmp/x/B.TXT")
  = (true,
     withNodes Samples.tmpx
       (<["/tmp/x/B.TXT" := RegularFile Samples.abc]> (nodes Samples.tmpx))).
Proof.
  apply (copyInternal_copies_when_room Samples.tmpx (mkFile "/tmp/x/a.txt")
           (mkFile "/tmp/x/B.TXT") Samples.abc).
  - simpl. discriminate.
  - vm_compute. reflexivity.
  - vm_compute. reflexivity.
  - vm_compute. reflexivity.
  - simpl. set_solver.
  - vm_compute. reflexivity.
  - simpl. lia.
Defined.

Lemma copyInternal_fails_when_device_full_witness :
  fst (copyInternal Samples.fullDisk (mkFile "/tmp/x/a.txt")
         (mkFile "/tmp/x/B.TXT")) = false
  /\ exists_ (snd (copyInternal Samples.fullDisk (mkFile "/tmp/x/a.txt")
                     (mkFile "/tmp/x/B.TXT")))
       (mkFile "/tmp/x/B.TXT") = false
  /\ fileBytes (snd (copyInternal Samples.fullDisk (mkFile "/tmp/x/a.txt")
                       (mkFile "/tmp/x/B.TXT")))
       "/tmp/x/a.txt" = Some Samples.abc.
Proof.
  apply (copyInternal_fails_when_device_full Samples.fullDisk
           (mkFile "/tmp/x/a.txt") (mkFile "/tmp/x/B.TXT") Samples.abc).
  - simpl. discriminate.
  - vm_compute. reflexivity.
  - vm_compute. reflexivity.
  - vm_compute. reflexivity.
  - simpl. set_solver.
  - vm_compute. reflexivity.
  - simpl. lia.
Defined.

Lemma copyInternal_changes_only_destination_witness :
  fileBytes (snd (copyInternal Samples.fullDisk (mkFile "/tmp/x/a.txt")
                    (mkFile "/tmp/x/B.TXT")))
    "/tmp/x/.hidden"
  = fileBytes Samples.fullDisk "/tmp/x/.hidden".
Proof.
  apply copyInternal_changes_only_destination. discriminate.
Defined.

Lemma copyInternal_twice_witness :
  copyInternal
    (snd (copyInternal Samples.tmpx (mkFile "/tmp/x/a.txt")
            (mkFile "/tmp/x/copy")))
    (mkFile "/tmp/x/a.txt") (mkFile "/tmp/x/copy")
  = copyInternal Samples.tmpx (mkFile "/tmp/x/a.txt") (mkFile "/tmp/x/copy").
Proof.
  apply (copyInternal_twice Samples.tmpx (mkFile "/tmp/x/a.txt")
           (mkFile "/tmp/x/copy") Samples.abc).
  - simpl. discriminate.
  - vm_compute. reflexivity.
  - vm_compute. reflexivity.
  - vm_compute. reflexivity.
  - simpl. set_solver.
  - vm_compute. reflexivity.
  - simpl. lia.
Defined.

Lemma copyInternal_keeps_undeletable_destination_witness :
  copyInternal MoreSamples.lockedDest (mkFile "/tmp/x/a.txt")
    (mkFile "/tmp/x/B.TXT")
  = (false, MoreSamples.lockedDest)
  /\ copyInternal Samples.tmpx (mkFile "/tmp/x/a.txt") (mkFile "/tmp/x")
     = (false, Samples.tmpx).
Proof.
  split.
  - apply copyInternal_keeps_undeletable_destination.
    + vm_compute. reflexivity.
    + left. simpl. set_solver.
  - apply copyInternal_keeps_undeletable_destination.
    + vm_compute. reflexivity.
    + right. exists ["."; ".."; "a.txt"; "B.TXT"; ".hidden"].
      split; vm_compute; reflexivity.
Defined.

(** ** Links at the bounds of the buffer *)

Lemma substring_prefix_twice (n : nat) : forall s : string,
  String.substring 0 n (String.substring 0 n s) = String.substring 0 n s.
Proof.
  induction n as [|n IH]; intros [|c s]; simpl; try reflexivity.
  rewrite IH. reflexivity.
Qed.

Section LinkBounds.

Variable getSiblingFile : File -> string -> File.

(** X12.  A link whose text is empty resolves to the file itself.  A link
    whose text is longer than the 8192 bytes of the buffer is not refused:
    it resolves to the sibling named by the first 8192 bytes of the
    text. *)
Theorem getLinkedTarget_bounds fs this :
  (links fs !! getFullPathName this = Some EmptyString ->
   getLinkedTarget getSiblingFile fs this = this)
  /\ (forall target,
         reachable fs (getFullPathName this) = true ->
         links fs !! getFullPathName this = Some target ->
         8192 < Z.of_nat (String.length target) ->
         getLinkedTarget getSiblingFile fs this
         = getSiblingFile (mkFile (getFullPathName this))
             (String.substring 0 (Z.to_nat 8192) target)).
Proof.
  unfold getLinkedTarget, juce_readlink, readlink. split.
  - intros ->. destruct (reachable fs (getFullPathName this)); reflexivity.
  - intros target -> -> Hlong.
    rewrite Z.min_r by lia.
    rewrite (to_size_t_small 8192) by lia.
    change ((0 <? 8192) && (8192 <=? 8192)) with true.
    cbv beta iota. unfold fromUTF8.
    rewrite substring_prefix_twice. reflexivity.
Qed.

End LinkBounds.

Lemma getLinkedTarget_bounds_witness :
  getLinkedTarget replaceLastSegment MoreSamples.oddLinks (mkFile "/d/empty")
  = mkFile "/d/empty"
  /\ getLinkedTarget replaceLastSegment MoreSamples.oddLinks (mkFile "/d/long")
     = replaceLastSegment (mkFile "/d/long")
         (String.substring 0 (Z.to_nat 8192) MoreSamples.longText).
Proof.
  split.
  - apply (proj1 (getLinkedTarget_bounds replaceLastSegment
                    MoreSamples.oddLinks (mkFile "/d/empty"))).
    vm_compute. reflexivity.
  - apply (proj2 (getLinkedTarget_bounds replaceLastSegment
                    MoreSamples.oddLinks (mkFile "/d/long"))).
    + vm_compute. reflexivity.
    + vm_compute. reflexivity.
    + vm_compute. reflexivity.
Defined.

(** ** Special locations, all of them *)

(** X13.  On a platform whose application data directory and executable
    file have paths that are not empty, [getSpecialLocation] returns the
    empty path for the values that are no enumerator and for no other, and
    an assertion is hit exactly for those values in a debug build. *)
Theorem getSpecialLocation_empty_only_unmapped env type :
  appDataDir env <> EmptyString ->
  getFullPathName (juce_getExecutableFile env) <> EmptyString ->
  (getFullPathName (value (getSpecialLocation env type)) = EmptyString
   <-> exists n, type = unknownLocation n)
  /\ (assertionHit (getSpecialLocation env type) = true
      <-> JUCE_DEBUG env = true /\ exists n, type = unknownLocation n).
Proof.
  intros Hdata Hexe.
  destruct type as [| | | | | | | | | | | | |n]; simpl;
    split; split; intros H;
    repeat match goal with
           | H : exists _, _ |- _ => destruct H
           | H : _ /\ _ |- _ => destruct H
           end;
    try discriminate; try contradiction; try assumption; eauto.
Qed.

Lemma getSpecialLocation_empty_only_unmapped_witness :
  (getFullPathName
     (value (getSpecialLocation Samples.debugBuild tempDirectory)) = EmptyString
   <-> exists n, tempDirectory = unknownLocation n)
  /\ (assertionHit (getSpecialLocation Samples.debugBuild tempDirectory) = true
      <-> JUCE_DEBUG Samples.debugBuild = true
          /\ exists n, tempDirectory = unknownLocation n).
Proof.
  apply getSpecialLocation_empty_only_unmapped; simpl; discriminate.
Defined.

(** ** Edge flags of a button *)

Lemma land_bit_zero f n :
  0 <= n -> (Z.land f (2 ^ n) =? 0) = negb (Z.testbit f n).
Proof.
  intros Hn. destruct (Z.testbit f n) eqn:Hbit; simpl.
  - apply Z.eqb_neq. intros H.
    assert (Z.testbit (Z.land f (2 ^ n)) n = true) as Hset.
    { rewrite Z.land_spec, Hbit, Z.pow2_bits_true by lia. reflexivity. }
    rewrite H, Z.bits_0 in Hset. discriminate.
  - apply Z.eqb_eq. apply Z.bits_inj'. intros m Hm.
    rewrite Z.land_spec, Z.bits_0.
    destruct (Z.eq_dec n m) as [<-|Hne].
    + rewrite Hbit. reflexivity.
    + rewrite Z.pow2_bits_false by lia. apply andb_false_r.
Qed.

Lemma isConnected_bits f :
  Button.isConnectedOnLeft f = Z.testbit f 0
  /\ Button.isConnectedOnRight f = Z.testbit f 1
  /\ Button.isConnectedOnTop f = Z.testbit f 2
  /\ Button.isConnectedOnBottom f = Z.testbit f 3.
Proof.
  unfold Button.isConnectedOnLeft, Button.isConnectedOnRight,
    Button.isConnectedOnTop, Button.isConnectedOnBottom,
    Button.ConnectedOnLeft, Button.ConnectedOnRight,
    Button.ConnectedOnTop, Button.ConnectedOnBottom.
  change 1 with (2 ^ 0). change 2 with (2 ^ 1) at 2.
  change 4 with (2 ^ 2). change 8 with (2 ^ 3).
  rewrite !land_bit_zero by lia. rewrite !negb_involutive. auto.
Qed.

(** X14.  Each of the four edge tests of a button holds for a combination
    [a | b] of two flag values exactly when it holds for [a] or for [b]. *)
Theorem edge_tests_of_union a b :
  Button.isConnectedOnLeft (Z.lor a b)
  = Button.isConnectedOnLeft a || Button.isConnectedOnLeft b
  /\ Button.isConnectedOnRight (Z.lor a b)
     = Button.isConnectedOnRight a || Button.isConnectedOnRight b
  /\ Button.isConnectedOnTop (Z.lor a b)
     = Button.isConnectedOnTop a || Button.isConnectedOnTop b
  /\ Button.isConnectedOnBottom (Z.lor a b)
     = Button.isConnectedOnBottom a || Button.isConnectedOnBottom b.
Proof.
  destruct (isConnected_bits (Z.lor a b)) as (-> & -> & -> & ->).
  destruct (isConnected_bits a) as (-> & -> & -> & ->).
  destruct (isConnected_bits b) as (-> & -> & -> & ->).
  rewrite !Z.lor_spec. auto.
Qed.

(** X15.  The four flags do not overlap: for a value that is the
    combination of any choice of the four flags, with any bits set above
    them, each edge test returns the choice made for its flag. *)
Theorem edge_flags_round_trip (left right top bottom : bool) (others : Z) :
  let flags :=
    Z.lor (Z.shiftl others 4)
      (Z.lor (if left then Button.ConnectedOnLeft else 0)
         (Z.lor (if right then Button.ConnectedOnRight else 0)
            (Z.lor (if top then Button.ConnectedOnTop else 0)
               (if bottom then Button.ConnectedOnBottom else 0)))) in
  Button.isConnectedOnLeft flags = left
  /\ Button.isConnectedOnRight flags = right
  /\ Button.isConnectedOnTop flags = top
  /\ Button.isConnectedOnBottom flags = bottom.
Proof.
  intros flags.
  destruct (isConnected_bits flags) as (-> & -> & -> & ->).
  unfold flags. rewrite !Z.lor_spec, !Z.shiftl_spec_low by lia.
  destruct left, right, top, bottom; repeat split; reflexivity.
Qed.
